(** * permessage-snappy: negotiation objects and compression session

    A shallow embedding of [autobahn/compress_snappy.py]: the four
    negotiation objects of the [permessage-snappy] WebSocket extension
    (offer, accept of an offer, response, accept of a response) and the
    per-connection session that owns the two stream codec contexts.

    Python is dynamically typed and the module relies on it (truthiness of
    flags, [isinstance] and [type(..) != bool] guards), so values are
    embedded as a small universe [PyVal]; a raised exception is the [Raise]
    branch of a result type; the parameter [dict] is an association list in
    iteration order, since the parsers report the first offending key they
    meet. *)

From Stdlib Require Import String Ascii List Bool ZArith Lia Permutation.
Import ListNotations.
Open Scope string_scope.

(** ** Python values

    The values the module is handed by the header parser and by its
    callers in practice: [None], booleans, integers and strings.  Floats
    and other numeric types are left out. *)

Inductive PyType : Type := TNone | TBool | TInt | TStr.

Inductive PyVal : Type :=
| VNone
| VBool (b : bool)
| VInt (z : Z)
| VStr (s : string).

(** [type(v)] *)
Definition py_type (v : PyVal) : PyType :=
  match v with
  | VNone => TNone
  | VBool _ => TBool
  | VInt _ => TInt
  | VStr _ => TStr
  end.

Definition PyType_eqb (a b : PyType) : bool :=
  match a, b with
  | TNone, TNone | TBool, TBool | TInt, TInt | TStr, TStr => true
  | _, _ => false
  end.

(** [bool(v)], the test an [if v:] performs. *)
Definition py_truth (v : PyVal) : bool :=
  match v with
  | VNone => false
  | VBool b => b
  | VInt z => negb (z =? 0)%Z
  | VStr s => negb (s =? EmptyString)
  end.

(** [v != True]: [True] compares equal to itself and to the integer 1. *)
Definition py_ne_True (v : PyVal) : bool :=
  match v with
  | VBool b => negb b
  | VInt z => negb (z =? 1)%Z
  | VNone | VStr _ => true
  end.

(** ** Exceptions

    The module raises plain [Exception]s told apart by their message; one
    constructor per message, carrying the values the message is formatted
    with.  [IndexError], [KeyError] and [AttributeError] are raised by the
    interpreter itself, [CodecError] inside the snappy library. *)

Inductive Exception : Type :=
| MultipleOccurrence (p : string)
    (* "multiple occurence of extension parameter '%s' for extension '%s'" *)
| IllegalValue (val : PyVal) (p : string)
    (* "illegal extension parameter value '%s' for parameter '%s' of extension '%s'" *)
| IllegalParameter (p : string)
    (* "illegal extension parameter '%s' for extension '%s'" *)
| InvalidOfferType
    (* "invalid type %s for offer" *)
| InvalidRequestType (t : PyType)
    (* "invalid type %s for requestNoContextTakeover" *)
| InvalidRequestValue (v : PyVal)
    (* "invalid value %s for requestNoContextTakeover - feature unsupported by client" *)
| InvalidResponseType
    (* "invalid type %s for response" *)
| IndexError
| KeyError (p : string)
| AttributeError
| CodecError.

Inductive Result (A : Type) : Type :=
| Ok (a : A)
| Raise (e : Exception).
Arguments Ok {A} a.
Arguments Raise {A} e.

Definition bind {A B : Type} (r : Result A) (k : A -> Result B) : Result B :=
  match r with
  | Ok a => k a
  | Raise e => Raise e
  end.

Notation "x <- r ;; k" := (bind r (fun x => k))
  (at level 61, r at next level, right associativity).

Definition raised {A : Type} (r : Result A) : bool :=
  match r with Ok _ => false | Raise _ => true end.

(** ** The parameter mapping

    [params] maps a parameter name to the list of values it occurred with.
    The list of pairs is the dict in the order [for p in params] visits
    it. *)

Definition Dict : Type := list (string * list PyVal).

Definition dict_keys (d : Dict) : list string := map fst d.

(** [d[p]] *)
Fixpoint dict_getitem (d : Dict) (p : string) : Result (list PyVal) :=
  match d with
  | [] => Raise (KeyError p)
  | (k, vs) :: d' => if k =? p then Ok vs else dict_getitem d' p
  end.

(** [vs[0]] *)
Definition list_getitem0 (vs : list PyVal) : Result PyVal :=
  match vs with
  | [] => Raise IndexError
  | v :: _ => Ok v
  end.

Definition EXTENSION_NAME : string := "permessage-snappy".

(** What a [__json__] method returns: a dict literal whose values are
    plain values or the dict of another object.  The pairs are in the
    order of the literal. *)
#[warnings="-register-all"]
Inductive Json : Type :=
| JValue (v : PyVal)
| JDict (d : list (string * Json)).

(** ** PerMessageSnappyOffer *)

Module PerMessageSnappyOffer.

Record t : Type := mk {
  acceptNoContextTakeover : PyVal;
  requestNoContextTakeover : PyVal
}.

(** [__init__]; an argument left out is [None] here and takes the
    default of the signature. *)
Definition init (acceptNoContextTakeover requestNoContextTakeover : option PyVal) : t :=
  {| acceptNoContextTakeover :=
       match acceptNoContextTakeover with Some v => v | None => VBool true end;
     requestNoContextTakeover :=
       match requestNoContextTakeover with Some v => v | None => VBool false end |}.

(** The body of [for p in params] with the two locals threaded
    through; [ks] is what is left of the keys. *)
Fixpoint parse_loop (params : Dict) (ks : list string)
         (acceptNoContextTakeover requestNoContextTakeover : bool)
  : Result (bool * bool) :=
  match ks with
  | [] => Ok (acceptNoContextTakeover, requestNoContextTakeover)
  | p :: ks' =>
      vs <- dict_getitem params p ;;
      if (1 <? length vs)%nat then Raise (MultipleOccurrence p)
      else
        val <- list_getitem0 vs ;;
        if p =? "c2s_no_context_takeover" then
          if py_ne_True val then Raise (IllegalValue val p)
          else parse_loop params ks' true requestNoContextTakeover
        else if p =? "s2c_no_context_takeover" then
          if py_ne_True val then Raise (IllegalValue val p)
          else parse_loop params ks' acceptNoContextTakeover true
        else Raise (IllegalParameter p)
  end.

Definition parse (params : Dict) : Result t :=
  flags <- parse_loop params (dict_keys params) false false ;;
  Ok (init (Some (VBool (fst flags))) (Some (VBool (snd flags)))).

Definition getExtensionString (self : t) : string :=
  let pmceString := EXTENSION_NAME in
  let pmceString :=
    if py_truth (acceptNoContextTakeover self)
    then pmceString ++ "; c2s_no_context_takeover" else pmceString in
  let pmceString :=
    if py_truth (requestNoContextTakeover self)
    then pmceString ++ "; s2c_no_context_takeover" else pmceString in
  pmceString.

Definition __json__ (self : t) : Json :=
  JDict [("extension", JValue (VStr EXTENSION_NAME));
         ("acceptNoContextTakeover", JValue (acceptNoContextTakeover self));
         ("requestNoContextTakeover", JValue (requestNoContextTakeover self))].

End PerMessageSnappyOffer.

(** ** PerMessageSnappyResponse *)

Module PerMessageSnappyResponse.

Record t : Type := mk {
  c2s_no_context_takeover : PyVal;
  s2c_no_context_takeover : PyVal
}.

Definition init (c2s_no_context_takeover s2c_no_context_takeover : PyVal) : t :=
  {| c2s_no_context_takeover := c2s_no_context_takeover;
     s2c_no_context_takeover := s2c_no_context_takeover |}.

Fixpoint parse_loop (params : Dict) (ks : list string)
         (c2s_no_context_takeover s2c_no_context_takeover : bool)
  : Result (bool * bool) :=
  match ks with
  | [] => Ok (c2s_no_context_takeover, s2c_no_context_takeover)
  | p :: ks' =>
      vs <- dict_getitem params p ;;
      if (1 <? length vs)%nat then Raise (MultipleOccurrence p)
      else
        val <- list_getitem0 vs ;;
        if p =? "c2s_no_context_takeover" then
          if py_ne_True val then Raise (IllegalValue val p)
          else parse_loop params ks' true s2c_no_context_takeover
        else if p =? "s2c_no_context_takeover" then
          if py_ne_True val then Raise (IllegalValue val p)
          else parse_loop params ks' c2s_no_context_takeover true
        else Raise (IllegalParameter p)
  end.

Definition parse (params : Dict) : Result t :=
  flags <- parse_loop params (dict_keys params) false false ;;
  Ok (init (VBool (fst flags)) (VBool (snd flags))).

End PerMessageSnappyResponse.

(** An object handed to a constructor that checks its class. *)
Inductive PyObj : Type :=
| AnOffer (o : PerMessageSnappyOffer.t)
| AResponse (r : PerMessageSnappyResponse.t)
| AValue (v : PyVal).

(** ** PerMessageSnappyOfferAccept *)

Module PerMessageSnappyOfferAccept.

Record t : Type := mk {
  offer : PerMessageSnappyOffer.t;
  requestNoContextTakeover : PyVal
}.

(** [__init__(self, offer, requestNoContextTakeover = False)] *)
Definition init (offer : PyObj) (requestNoContextTakeover : option PyVal) : Result t :=
  let requestNoContextTakeover :=
    match requestNoContextTakeover with Some v => v | None => VBool false end in
  match offer with
  | AnOffer offer =>
      if negb (PyType_eqb (py_type requestNoContextTakeover) TBool)
      then Raise (InvalidRequestType (py_type requestNoContextTakeover))
      else if py_truth requestNoContextTakeover
              && negb (py_truth (PerMessageSnappyOffer.acceptNoContextTakeover offer))
      then Raise (InvalidRequestValue requestNoContextTakeover)
      else Ok {| offer := offer;
                 requestNoContextTakeover := requestNoContextTakeover |}
  | _ => Raise InvalidOfferType
  end.

Definition getExtensionString (self : t) : string :=
  let pmceString := EXTENSION_NAME in
  let pmceString :=
    if py_truth (PerMessageSnappyOffer.requestNoContextTakeover (offer self))
    then pmceString ++ "; s2c_no_context_takeover" else pmceString in
  let pmceString :=
    if py_truth (requestNoContextTakeover self)
    then pmceString ++ "; c2s_no_context_takeover" else pmceString in
  pmceString.

Definition __json__ (self : t) : Json :=
  JDict [("extension", JValue (VStr EXTENSION_NAME));
         ("offer", PerMessageSnappyOffer.__json__ (offer self));
         ("requestNoContextTakeover", JValue (requestNoContextTakeover self))].

End PerMessageSnappyOfferAccept.

(** ** PerMessageSnappyResponseAccept *)

Module PerMessageSnappyResponseAccept.

Record t : Type := mk {
  response : PerMessageSnappyResponse.t
}.

Definition init (response : PyObj) : Result t :=
  match response with
  | AResponse response => Ok {| response := response |}
  | _ => Raise InvalidResponseType
  end.

End PerMessageSnappyResponseAccept.

(** ** The snappy stream codec

    [snappy.StreamCompressor] and [snappy.StreamDecompressor] belong to an
    external library.  Only their interface matters here: a newly created
    object starts in a fixed state, and feeding it a chunk returns the
    output bytes (or raises inside the library, [None]) and moves the
    object to its next state. *)

Record StreamCodec : Type := {
  cstate : Type;
  cstate_new : cstate;
  add_chunk : cstate -> string -> option string * cstate;
  dstate : Type;
  dstate_new : dstate;
  decompress : dstate -> string -> option string * dstate
}.

(** A codec that copies its input, to run the session on concrete data. *)
Definition copy_codec : StreamCodec :=
  {| cstate := unit; cstate_new := tt; add_chunk := fun st d => (Some d, st);
     dstate := unit; dstate_new := tt; decompress := fun st d => (Some d, st) |}.

(** ** PerMessageSnappy, the session *)

Module PerMessageSnappy.
Section WithCodec.

Context (codec : StreamCodec).

(** A codec object is referenced from one field of one session only, so
    it is kept in that field; [c_id] / [d_id] is the identity of the
    instance, the number of codec objects created before it. *)
Record StreamCompressor : Type := {
  c_id : nat;
  c_state : cstate codec
}.

Record StreamDecompressor : Type := {
  d_id : nat;
  d_state : dstate codec
}.

Record t : Type := {
  _isServer : PyVal;
  _compressor : option StreamCompressor;
  _decompressor : option StreamDecompressor;
  s2c_no_context_takeover : PyVal;
  c2s_no_context_takeover : PyVal
}.

(** [__init__] *)
Definition init (isServer s2c_no_context_takeover c2s_no_context_takeover : PyVal)
  : t :=
  {| _isServer := isServer;
     _compressor := None;
     _decompressor := None;
     s2c_no_context_takeover := s2c_no_context_takeover;
     c2s_no_context_takeover := c2s_no_context_takeover |}.

Definition createFromResponseAccept (isServer : PyVal)
           (accept : PerMessageSnappyResponseAccept.t) : t :=
  let response := PerMessageSnappyResponseAccept.response accept in
  init isServer
       (PerMessageSnappyResponse.s2c_no_context_takeover response)
       (PerMessageSnappyResponse.c2s_no_context_takeover response).

Definition createFromOfferAccept (isServer : PyVal)
           (accept : PerMessageSnappyOfferAccept.t) : t :=
  init isServer
       (PerMessageSnappyOffer.requestNoContextTakeover
          (PerMessageSnappyOfferAccept.offer accept))
       (PerMessageSnappyOfferAccept.requestNoContextTakeover accept).

Definition __json__ (self : t) : Json :=
  JDict [("extension", JValue (VStr EXTENSION_NAME));
         ("s2c_no_context_takeover", JValue (s2c_no_context_takeover self));
         ("c2s_no_context_takeover", JValue (c2s_no_context_takeover self))].

(** What a method runs in: the session it mutates and the number of
    codec objects created so far. *)
Record World : Type := {
  self : t;
  created : nat
}.

Definition Method : Type := World -> Result PyVal * World.

Definition is_None {A : Type} (x : option A) : bool :=
  match x with None => true | Some _ => false end.

(** [self._compressor = snappy.StreamCompressor()] *)
Definition set_new_compressor (w : World) : World :=
  let s := self w in
  {| self := {| _isServer := _isServer s;
                _compressor := Some {| c_id := created w; c_state := cstate_new codec |};
                _decompressor := _decompressor s;
                s2c_no_context_takeover := s2c_no_context_takeover s;
                c2s_no_context_takeover := c2s_no_context_takeover s |};
     created := S (created w) |}.

(** [self._decompressor = snappy.StreamDecompressor()] *)
Definition set_new_decompressor (w : World) : World :=
  let s := self w in
  {| self := {| _isServer := _isServer s;
                _compressor := _compressor s;
                _decompressor :=
                  Some {| d_id := created w; d_state := dstate_new codec |};
                s2c_no_context_takeover := s2c_no_context_takeover s;
                c2s_no_context_takeover := c2s_no_context_takeover s |};
     created := S (created w) |}.

Definition startCompressMessage : Method := fun w =>
  let s := self w in
  if py_truth (_isServer s) then
    if is_None (_compressor s) || py_truth (s2c_no_context_takeover s)
    then (Ok VNone, set_new_compressor w)
    else (Ok VNone, w)
  else
    if is_None (_compressor s) || py_truth (c2s_no_context_takeover s)
    then (Ok VNone, set_new_compressor w)
    else (Ok VNone, w).

(** [None] has no [add_chunk]: the attribute lookup raises. *)
Definition compressMessageData (data : string) : Method := fun w =>
  let s := self w in
  match _compressor s with
  | None => (Raise AttributeError, w)
  | Some c =>
      let '(out, st) := add_chunk codec (c_state c) data in
      (match out with Some b => Ok (VStr b) | None => Raise CodecError end,
       {| self := {| _isServer := _isServer s;
                     _compressor := Some {| c_id := c_id c; c_state := st |};
                     _decompressor := _decompressor s;
                     s2c_no_context_takeover := s2c_no_context_takeover s;
                     c2s_no_context_takeover := c2s_no_context_takeover s |};
          created := created w |})
  end.

Definition endCompressMessage : Method := fun w => (Ok (VStr EmptyString), w).

Definition startDecompressMessage : Method := fun w =>
  let s := self w in
  if py_truth (_isServer s) then
    if is_None (_decompressor s) || py_truth (c2s_no_context_takeover s)
    then (Ok VNone, set_new_decompressor w)
    else (Ok VNone, w)
  else
    if is_None (_decompressor s) || py_truth (s2c_no_context_takeover s)
    then (Ok VNone, set_new_decompressor w)
    else (Ok VNone, w).

Definition decompressMessageData (data : string) : Method := fun w =>
  let s := self w in
  match _decompressor s with
  | None => (Raise AttributeError, w)
  | Some d =>
      let '(out, st) := decompress codec (d_state d) data in
      (match out with Some b => Ok (VStr b) | None => Raise CodecError end,
       {| self := {| _isServer := _isServer s;
                     _compressor := _compressor s;
                     _decompressor := Some {| d_id := d_id d; d_state := st |};
                     s2c_no_context_takeover := s2c_no_context_takeover s;
                     c2s_no_context_takeover := c2s_no_context_takeover s |};
          created := created w |})
  end.

Definition endDecompressMessage : Method := fun w => (Ok VNone, w).

(** The calls the transport makes on a session, and a run of them.  An
    exception goes to the caller; the session stays as the raising call
    left it. *)
Inductive Call : Type :=
| StartCompress
| CompressData (data : string)
| EndCompress
| StartDecompress
| DecompressData (data : string)
| EndDecompress.

Definition call (c : Call) : Method :=
  match c with
  | StartCompress => startCompressMessage
  | CompressData data => compressMessageData data
  | EndCompress => endCompressMessage
  | StartDecompress => startDecompressMessage
  | DecompressData data => decompressMessageData data
  | EndDecompress => endDecompressMessage
  end.

Definition run (cs : list Call) (w : World) : World :=
  fold_left (fun w c => snd (call c w)) cs w.

End WithCodec.

Arguments c_id {codec} _.
Arguments c_state {codec} _.
Arguments d_id {codec} _.
Arguments d_state {codec} _.
Arguments _isServer {codec} _.
Arguments _compressor {codec} _.
Arguments _decompressor {codec} _.
Arguments s2c_no_context_takeover {codec} _.
Arguments c2s_no_context_takeover {codec} _.
Arguments self {codec} _.
Arguments created {codec} _.

End PerMessageSnappy.

(** ** From the wire string back to a parameter mapping

    The transport's header parser is not part of this module; it is
    modelled here from the description of the wire syntax and of the
    mapping the parsers consume. *)

(** Modelled from the spec: the blank that may surround a token. *)
Definition is_space (c : ascii) : bool := Ascii.eqb c " "%char.

(** Modelled from the spec: the pieces of [s] between occurrences of
    the separator. *)
Fixpoint split_on (sep : ascii) (s : string) : list string :=
  match s with
  | EmptyString => [EmptyString]
  | String c s' =>
      if Ascii.eqb c sep then EmptyString :: split_on sep s'
      else match split_on sep s' with
           | [] => [String c EmptyString]
           | w :: ws => String c w :: ws
           end
  end.

(** Modelled from the spec: [s] without its leading blanks. *)
Fixpoint lstrip (s : string) : string :=
  match s with
  | String c s' => if is_space c then lstrip s' else s
  | EmptyString => EmptyString
  end.

(** Modelled from the spec: [s] without its trailing blanks. *)
Fixpoint rstrip (s : string) : string :=
  match s with
  | EmptyString => EmptyString
  | String c s' =>
      match rstrip s' with
      | EmptyString => if is_space c then EmptyString else String c EmptyString
      | r => String c r
      end
  end.

(** Modelled from the spec: a token without the blanks around it. *)
Definition strip (s : string) : string := rstrip (lstrip s).

(** Modelled from the spec: one more occurrence of [p], with value [v];
    "each entry's sequence length signals repetition".  A new name goes
    last. *)
Fixpoint dict_append (d : Dict) (p : string) (v : PyVal) : Dict :=
  match d with
  | [] => [(p, [v])]
  | (k, vs) :: d' =>
      if k =? p then (k, (vs ++ [v])%list) :: d' else (k, vs) :: dict_append d' p v
  end.

(** Modelled from the spec: the extensions-header parser that supplies
    [params] ([WebSocketProtocol._parseExtensionsHeader], which lives in
    the transport and not in this module).  For one extension, the wire
    string is the extension token followed by parameters separated by
    [;]; a parameter carries no [=value], its presence is decoded as the
    boolean [True], and a name that occurs again adds one more value to
    that name's sequence.  Returns the extension token and the mapping. *)
Definition parseExtension (header : string) : string * Dict :=
  match map strip (split_on ";"%char header) with
  | [] => (EmptyString, [])
  | extension :: ps =>
      (extension, fold_left (fun d p => dict_append d p (VBool true)) ps [])
  end.

(** ** Vocabulary of the statements *)

(** [p in d] *)
Definition dict_contains (d : Dict) (p : string) : bool :=
  existsb (fun k => k =? p) (dict_keys d).

(** The key passes one turn of the parsing loop: it is one of the two
    parameter names and [params[k]] is a single value equal to [True]. *)
Definition passes (params : Dict) (k : string) : bool :=
  match dict_getitem params k with
  | Ok [v] =>
      ((k =? "c2s_no_context_takeover") || (k =? "s2c_no_context_takeover"))
      && negb (py_ne_True v)
  | _ => false
  end.

(** An offer with [foo] ahead of a repeated [c2s_no_context_takeover]. *)
Definition foo_then_repeated : Dict :=
  [("foo", [VBool true]);
   ("c2s_no_context_takeover", [VBool true; VBool true])].

(** One where the key visited first passes. *)
Definition s2c_then_repeated : Dict :=
  [("s2c_no_context_takeover", [VBool true]);
   ("c2s_no_context_takeover", [VStr "x"; VInt 7])].

Definition both_flags : Dict :=
  [("c2s_no_context_takeover", [VBool true]);
   ("s2c_no_context_takeover", [VBool true])].

Definition both_flags_swapped : Dict :=
  [("s2c_no_context_takeover", [VBool true]);
   ("c2s_no_context_takeover", [VBool true])].

(** Every codec object the session holds was created earlier: its
    identity is below the creation count. *)
Definition ids_below {codec : StreamCodec} (w : PerMessageSnappy.World codec) : Prop :=
  (forall c, PerMessageSnappy._compressor (PerMessageSnappy.self w) = Some c ->
             (PerMessageSnappy.c_id c < PerMessageSnappy.created w)%nat) /\
  (forall d, PerMessageSnappy._decompressor (PerMessageSnappy.self w) = Some d ->
             (PerMessageSnappy.d_id d < PerMessageSnappy.created w)%nat).

(** A new server session that resets its outbound context at every
    message, and one that keeps it. *)
Definition resetting_server : PerMessageSnappy.World copy_codec :=
  {| PerMessageSnappy.self :=
       PerMessageSnappy.init copy_codec (VBool true) (VBool true) (VBool false);
     PerMessageSnappy.created := 0 |}.

Definition keeping_server : PerMessageSnappy.World copy_codec :=
  {| PerMessageSnappy.self :=
       PerMessageSnappy.init copy_codec (VBool true) (VBool false) (VBool false);
     PerMessageSnappy.created := 0 |}.

(** The exception is the one a failed [d[p]] raises. *)
Definition is_KeyError (e : Exception) : bool :=
  match e with KeyError _ => true | _ => false end.

(** One of the two parameter names of the extension. *)
Definition known_name (p : string) : bool :=
  (p =? "c2s_no_context_takeover") || (p =? "s2c_no_context_takeover").

(** What one turn of the parsing loop raises for the key [k], if
    anything: the lookup's own exception, [IndexError] for no value, the
    multiple-occurrence exception for more than one, and for one value the
    illegal-value exception under a parameter name when the value is not
    equal to [True], the illegal-parameter exception under any other
    name. *)
Definition offence (params : Dict) (k : string) : option Exception :=
  match dict_getitem params k with
  | Raise e => Some e
  | Ok [] => Some IndexError
  | Ok [v] =>
      if known_name k
      then if py_ne_True v then Some (IllegalValue v k) else None
      else Some (IllegalParameter k)
  | Ok (_ :: _ :: _) => Some (MultipleOccurrence k)
  end.

(** A mapping with one key bound to no value at all. *)
Definition c2s_without_value : Dict :=
  [("s2c_no_context_takeover", [VInt 1]); ("c2s_no_context_takeover", [])].

(** The flag that decides about this side's outbound context, and the
    one that decides about its inbound context. *)
Definition outbound_flag {codec : StreamCodec} (s : PerMessageSnappy.t codec) : PyVal :=
  if py_truth (PerMessageSnappy._isServer s)
  then PerMessageSnappy.s2c_no_context_takeover s
  else PerMessageSnappy.c2s_no_context_takeover s.

Definition inbound_flag {codec : StreamCodec} (s : PerMessageSnappy.t codec) : PyVal :=
  if py_truth (PerMessageSnappy._isServer s)
  then PerMessageSnappy.c2s_no_context_takeover s
  else PerMessageSnappy.s2c_no_context_takeover s.

Definition is_StartCompress (c : PerMessageSnappy.Call) : bool :=
  match c with PerMessageSnappy.StartCompress => true | _ => false end.

Definition is_StartDecompress (c : PerMessageSnappy.Call) : bool :=
  match c with PerMessageSnappy.StartDecompress => true | _ => false end.

(** The calls of the outbound direction. *)
Definition compress_side (c : PerMessageSnappy.Call) : bool :=
  match c with
  | PerMessageSnappy.StartCompress
  | PerMessageSnappy.CompressData _
  | PerMessageSnappy.EndCompress => true
  | _ => false
  end.

(** The state in which the chunks of the [compressMessageData] calls of
    [cs], fed in order, leave a compressor that was in state [st]; and
    the same for a decompressor. *)
Fixpoint fed {codec : StreamCodec} (st : cstate codec)
         (cs : list PerMessageSnappy.Call) : cstate codec :=
  match cs with
  | [] => st
  | PerMessageSnappy.CompressData data :: cs' =>
      fed (snd (add_chunk codec st data)) cs'
  | _ :: cs' => fed st cs'
  end.

Fixpoint fed_back {codec : StreamCodec} (st : dstate codec)
         (cs : list PerMessageSnappy.Call) : dstate codec :=
  match cs with
  | [] => st
  | PerMessageSnappy.DecompressData data :: cs' =>
      fed_back (snd (decompress codec st data)) cs'
  | _ :: cs' => fed_back st cs'
  end.

(** The compressor and the decompressor of a session are two objects. *)
Definition contexts_apart {codec : StreamCodec} (w : PerMessageSnappy.World codec) : Prop :=
  forall c d,
    PerMessageSnappy._compressor (PerMessageSnappy.self w) = Some c ->
    PerMessageSnappy._decompressor (PerMessageSnappy.self w) = Some d ->
    PerMessageSnappy.c_id c <> PerMessageSnappy.d_id d.

(** One message through the sending side, in the order the transport
    makes the calls: [startCompressMessage], one [compressMessageData] per
    chunk, [endCompressMessage].  The results of the data calls and the
    session afterwards. *)
Fixpoint compress_chunks {codec : StreamCodec} (chunks : list string)
         (w : PerMessageSnappy.World codec)
  : list (Result PyVal) * PerMessageSnappy.World codec :=
  match chunks with
  | [] => ([], w)
  | data :: rest =>
      let (r, w1) := PerMessageSnappy.compressMessageData codec data w in
      let (rs, w2) := compress_chunks rest w1 in
      (r :: rs, w2)
  end.

Definition send_message {codec : StreamCodec} (chunks : list string)
           (w : PerMessageSnappy.World codec)
  : list (Result PyVal) * PerMessageSnappy.World codec :=
  let (rs, w') :=
    compress_chunks chunks (snd (PerMessageSnappy.startCompressMessage codec w)) in
  (rs, snd (PerMessageSnappy.endCompressMessage codec w')).

(** One message through the receiving side: [startDecompressMessage], one
    [decompressMessageData] per chunk, [endDecompressMessage]. *)
Fixpoint decompress_chunks {codec : StreamCodec} (chunks : list string)
         (w : PerMessageSnappy.World codec)
  : list (Result PyVal) * PerMessageSnappy.World codec :=
  match chunks with
  | [] => ([], w)
  | data :: rest =>
      let (r, w1) := PerMessageSnappy.decompressMessageData codec data w in
      let (rs, w2) := decompress_chunks rest w1 in
      (r :: rs, w2)
  end.

Definition receive_message {codec : StreamCodec} (chunks : list string)
           (w : PerMessageSnappy.World codec)
  : list (Result PyVal) * PerMessageSnappy.World codec :=
  let (rs, w') :=
    decompress_chunks chunks (snd (PerMessageSnappy.startDecompressMessage codec w)) in
  (rs, snd (PerMessageSnappy.endDecompressMessage codec w')).

(** What is asked of the codec for data to come through: a relation
    between the states of a compressor and of the decompressor reading
    it, which holds between new objects and is kept when the output of
    [add_chunk] is given to [decompress], which then returns the chunk. *)
Definition lossless (codec : StreamCodec)
           (R : cstate codec -> dstate codec -> Prop) : Prop :=
  R (cstate_new codec) (dstate_new codec) /\
  forall c d data,
    R c d ->
    exists out c' d',
      add_chunk codec c data = (Some out, c') /\
      decompress codec d out = (Some data, d') /\
      R c' d'.

(** The sending session and the receiving session of one direction go
    together: the flag of the direction reads the same on both sides and,
    unless it makes both reset at every message, either none has a context
    yet or their contexts are related. *)
Definition in_sync {codec : StreamCodec}
           (R : cstate codec -> dstate codec -> Prop)
           (sender receiver : PerMessageSnappy.World codec) : Prop :=
  py_truth (outbound_flag (PerMessageSnappy.self sender))
  = py_truth (inbound_flag (PerMessageSnappy.self receiver)) /\
  (py_truth (outbound_flag (PerMessageSnappy.self sender)) = true \/
   match PerMessageSnappy._compressor (PerMessageSnappy.self sender),
         PerMessageSnappy._decompressor (PerMessageSnappy.self receiver) with
   | None, None => True
   | Some c, Some d => R (PerMessageSnappy.c_state c) (PerMessageSnappy.d_state d)
   | _, _ => False
   end).

(** A client session whose inbound context is reset at every message. *)
Definition resetting_client : PerMessageSnappy.World copy_codec :=
  {| PerMessageSnappy.self :=
       PerMessageSnappy.init copy_codec (VBool false) (VBool true) (VBool false);
     PerMessageSnappy.created := 0 |}.

(** * Properties *)

(** ** The parsing loop *)

(** Both classes run the same loop. *)
Lemma Response_parse_loop_eq params ks a b :
  PerMessageSnappyResponse.parse_loop params ks a b
  = PerMessageSnappyOffer.parse_loop params ks a b.
Proof.
  revert a b; induction ks as [|p ks IH]; intros a b; simpl; [reflexivity|].
  destruct (dict_getitem params p) as [vs|e]; simpl; [|reflexivity].
  destruct (1 <? length vs)%nat; [reflexivity|].
  destruct (list_getitem0 vs) as [val|e]; simpl; [|reflexivity].
  now rewrite !IH.
Qed.

Lemma Response_parse_as_Offer params :
  PerMessageSnappyResponse.parse params =
  (o <- PerMessageSnappyOffer.parse params ;;
   Ok (PerMessageSnappyResponse.init (PerMessageSnappyOffer.acceptNoContextTakeover o)
                     (PerMessageSnappyOffer.requestNoContextTakeover o))).
Proof.
  unfold PerMessageSnappyResponse.parse, PerMessageSnappyOffer.parse.
  rewrite Response_parse_loop_eq.
  now destruct (PerMessageSnappyOffer.parse_loop _ _ _ _) as [[a b]|e].
Qed.

Lemma dict_getitem_In (d : Dict) p vs :
  dict_getitem d p = Ok vs -> In p (dict_keys d).
Proof.
  induction d as [|[k ws] d IH]; simpl; [discriminate|].
  destruct (k =? p) eqn:E; [|now right; apply IH].
  apply String.eqb_eq in E. now left.
Qed.

(** A key with more than one value anywhere among the keys still to visit
    makes the loop raise. *)
Lemma parse_loop_repeated_raises params p vs :
  dict_getitem params p = Ok vs -> (1 < length vs)%nat ->
  forall ks a b,
    In p ks -> raised (PerMessageSnappyOffer.parse_loop params ks a b) = true.
Proof.
  intros Hget Hlen ks; induction ks as [|k ks IH]; intros a b Hin; [easy|].
  simpl.
  destruct (dict_getitem params k) as [ws|e] eqn:Hk; simpl; [|reflexivity].
  destruct (1 <? length ws)%nat eqn:Hw; [reflexivity|].
  destruct Hin as [->|Hin].
  - rewrite Hget in Hk; injection Hk as <-.
    apply Nat.ltb_ge in Hw; lia.
  - destruct (list_getitem0 ws) as [val|e]; simpl; [|reflexivity].
    destruct (k =? "c2s_no_context_takeover").
    + destruct (py_ne_True val); [reflexivity|now apply IH].
    + destruct (k =? "s2c_no_context_takeover"); [|reflexivity].
      destruct (py_ne_True val); [reflexivity|now apply IH].
Qed.

(** Keys that pass are skipped over; only the locals change. *)
Lemma parse_loop_passes params before :
  forallb (passes params) before = true ->
  forall ks a b, exists a' b',
    PerMessageSnappyOffer.parse_loop params (before ++ ks) a b
    = PerMessageSnappyOffer.parse_loop params ks a' b'.
Proof.
  induction before as [|k before IH]; intros Hall ks a b; [now exists a, b|].
  simpl in Hall; apply andb_true_iff in Hall as [Hk Hall].
  unfold passes in Hk. simpl.
  destruct (dict_getitem params k) as [[|v [|? ?]]|e]; try discriminate.
  simpl.
  apply andb_true_iff in Hk as [Hname Hval].
  apply negb_true_iff in Hval; rewrite Hval.
  destruct (k =? "c2s_no_context_takeover"); [now apply IH|].
  simpl in Hname; rewrite Hname. now apply IH.
Qed.

Lemma parse_loop_first_repeated params before p after vs a b :
  forallb (passes params) before = true ->
  dict_getitem params p = Ok vs -> (1 < length vs)%nat ->
  PerMessageSnappyOffer.parse_loop params (before ++ p :: after) a b
  = Raise (MultipleOccurrence p).
Proof.
  intros Hall Hget Hlen.
  destruct (parse_loop_passes params before Hall (p :: after) a b) as (a' & b' & ->).
  simpl. rewrite Hget; simpl.
  apply Nat.ltb_lt in Hlen; now rewrite Hlen.
Qed.

(** The keys ahead of the first one that does not pass have no say in
    the exception. *)
Lemma parse_first_offender params before p after e :
  dict_keys params = (before ++ p :: after)%list ->
  forallb (passes params) before = true ->
  (forall a b, PerMessageSnappyOffer.parse_loop params (p :: after) a b = Raise e) ->
  PerMessageSnappyOffer.parse params = Raise e /\
  PerMessageSnappyResponse.parse params = Raise e.
Proof.
  intros Hkeys Hall Hturn.
  assert (H : PerMessageSnappyOffer.parse params = Raise e).
  { unfold PerMessageSnappyOffer.parse. rewrite Hkeys.
    destruct (parse_loop_passes params before Hall (p :: after) false false)
      as (a' & b' & ->).
    now rewrite Hturn. }
  split; [exact H|].
  rewrite Response_parse_as_Offer. now rewrite H.
Qed.

(** A list on which a test fails somewhere has a first element on
    which it fails. *)
Lemma forallb_first_false {A : Type} (f : A -> bool) (l : list A) :
  forallb f l = false ->
  exists before k after,
    l = (before ++ k :: after)%list /\
    forallb f before = true /\ f k = false.
Proof.
  induction l as [|x l IH]; simpl; [discriminate|].
  destruct (f x) eqn:Hx; simpl.
  - intros H. destruct (IH H) as (before & k & after & -> & Hb & Hk).
    exists (x :: before), k, after. simpl. now rewrite Hx.
  - intros _. now exists [], x, l.
Qed.

(** A key that does not pass ends the loop with its [offence]. *)
Lemma parse_loop_offence params k :
  passes params k = false ->
  exists e,
    offence params k = Some e /\
    forall after a b,
      PerMessageSnappyOffer.parse_loop params (k :: after) a b = Raise e.
Proof.
  unfold passes, offence, known_name. intros Hk.
  destruct (dict_getitem params k) as [[|v [|v' vs]]|e] eqn:Hget.
  - exists IndexError. split; [reflexivity|].
    intros after a b. simpl. now rewrite Hget.
  - destruct (k =? "c2s_no_context_takeover") eqn:Hc; simpl in Hk |- *.
    + apply negb_false_iff in Hk. rewrite Hk.
      exists (IllegalValue v k). split; [reflexivity|].
      intros after a b. simpl. rewrite Hget. simpl. now rewrite ?Hc, ?Hk.
    + destruct (k =? "s2c_no_context_takeover") eqn:Hs; simpl in Hk |- *.
      * apply negb_false_iff in Hk. rewrite Hk.
        exists (IllegalValue v k). split; [reflexivity|].
        intros after a b. simpl. rewrite Hget. simpl. now rewrite ?Hc, ?Hs, ?Hk.
      * exists (IllegalParameter k). split; [reflexivity|].
        intros after a b. simpl. rewrite Hget. simpl. now rewrite ?Hc, ?Hs.
  - exists (MultipleOccurrence k). split; [reflexivity|].
    intros after a b. simpl. now rewrite Hget.
  - exists e. split; [reflexivity|].
    intros after a b. simpl. now rewrite Hget.
Qed.

(** What the locals hold when the loop ends normally. *)
Lemma parse_loop_flags params ks :
  forall a b a' b',
    PerMessageSnappyOffer.parse_loop params ks a b = Ok (a', b') ->
    a' = a || existsb (fun k => k =? "c2s_no_context_takeover") ks /\
    b' = b || existsb (fun k => k =? "s2c_no_context_takeover") ks.
Proof.
  induction ks as [|k ks IH]; intros a b a' b' H; simpl in H.
  - injection H as <- <-. now rewrite !orb_false_r.
  - destruct (dict_getitem params k) as [vs|e]; simpl in H; [|discriminate].
    destruct (1 <? length vs)%nat; [discriminate|].
    destruct (list_getitem0 vs) as [val|e]; simpl in H; [|discriminate].
    simpl.
    destruct (k =? "c2s_no_context_takeover") eqn:Hc.
    + destruct (py_ne_True val); [discriminate|].
      apply IH in H as [-> ->].
      apply String.eqb_eq in Hc; subst k; simpl.
      now rewrite orb_true_r.
    + destruct (k =? "s2c_no_context_takeover") eqn:Hs; [|discriminate].
      destruct (py_ne_True val); [discriminate|].
      apply IH in H as [-> ->].
      now rewrite orb_true_r.
Qed.

(** The wire string of an offer depends on the truth of its flags only. *)
Lemma Offer_getExtensionString_truth offer :
  PerMessageSnappyOffer.getExtensionString offer =
  PerMessageSnappyOffer.getExtensionString
    (PerMessageSnappyOffer.mk
       (VBool (py_truth (PerMessageSnappyOffer.acceptNoContextTakeover offer)))
       (VBool (py_truth (PerMessageSnappyOffer.requestNoContextTakeover offer)))).
Proof. reflexivity. Qed.

Lemma dict_contains_keys params p :
  dict_contains params p = existsb (fun k => k =? p) (dict_keys params).
Proof. reflexivity. Qed.

(** ** Negotiation objects *)

(** C1. Accepting an offer with [requestNoContextTakeover = True] raises
    the "feature unsupported by client" exception whenever the offer's
    [acceptNoContextTakeover] is false; for an offer that [parse] returned
    and a boolean [requestNoContextTakeover], in every other case (the
    request is [False], or the offer accepts) the constructor returns the
    accept object holding that offer and that flag. *)
Theorem OfferAccept_init_consent :
  (forall offer,
      py_truth (PerMessageSnappyOffer.acceptNoContextTakeover offer) = false ->
      PerMessageSnappyOfferAccept.init (AnOffer offer) (Some (VBool true))
      = Raise (InvalidRequestValue (VBool true)))
  /\
  (forall params offer (requestNoContextTakeover : bool),
      PerMessageSnappyOffer.parse params = Ok offer ->
      requestNoContextTakeover = false \/
      PerMessageSnappyOffer.acceptNoContextTakeover offer = VBool true ->
      PerMessageSnappyOfferAccept.init
        (AnOffer offer) (Some (VBool requestNoContextTakeover))
      = Ok (PerMessageSnappyOfferAccept.mk offer (VBool requestNoContextTakeover))).
Proof.
  split.
  - intros offer Hno. unfold PerMessageSnappyOfferAccept.init; simpl.
    now rewrite Hno.
  - intros params offer r _ Hok.
    unfold PerMessageSnappyOfferAccept.init; simpl.
    destruct Hok as [-> | ->]; [reflexivity|].
    simpl. now rewrite andb_false_r.
Qed.

Lemma OfferAccept_init_consent_witness :
  PerMessageSnappyOfferAccept.init
    (AnOffer (PerMessageSnappyOffer.mk (VBool false) (VBool true)))
    (Some (VBool true))
  = Raise (InvalidRequestValue (VBool true))
  /\
  PerMessageSnappyOfferAccept.init
    (AnOffer (PerMessageSnappyOffer.mk (VBool true) (VBool true)))
    (Some (VBool true))
  = Ok (PerMessageSnappyOfferAccept.mk
          (PerMessageSnappyOffer.mk (VBool true) (VBool true)) (VBool true)).
Proof.
  split.
  - apply (proj1 OfferAccept_init_consent). reflexivity.
  - apply (proj2 OfferAccept_init_consent both_flags).
    + reflexivity.
    + right. reflexivity.
Defined.

(** C2. Round trip of an offer through the wire: the string of an offer,
    read back into a parameter mapping and parsed, gives an offer with the
    same string, in whichever order the mapping hands out its keys.  It
    holds for the four combinations of boolean flags and for any other
    flag values as well, the string depending on their truth only. *)
Theorem Offer_wire_roundtrip (offer : PerMessageSnappyOffer.t) (params : Dict) :
  Permutation
    (snd (parseExtension (PerMessageSnappyOffer.getExtensionString offer)))
    params ->
  exists parsed,
    PerMessageSnappyOffer.parse params = Ok parsed /\
    PerMessageSnappyOffer.getExtensionString parsed
    = PerMessageSnappyOffer.getExtensionString offer.
Proof.
  rewrite (Offer_getExtensionString_truth offer).
  destruct (py_truth (PerMessageSnappyOffer.acceptNoContextTakeover offer)),
           (py_truth (PerMessageSnappyOffer.requestNoContextTakeover offer));
    intros Hperm; vm_compute in Hperm.
  - apply Permutation_length_2_inv in Hperm as [-> | ->];
      eexists; (split; [vm_compute; reflexivity | reflexivity]).
  - apply Permutation_length_1_inv in Hperm as ->.
    eexists; (split; [vm_compute; reflexivity | reflexivity]).
  - apply Permutation_length_1_inv in Hperm as ->.
    eexists; (split; [vm_compute; reflexivity | reflexivity]).
  - apply Permutation_nil in Hperm as ->.
    eexists; (split; [vm_compute; reflexivity | reflexivity]).
Qed.

Lemma Offer_wire_roundtrip_witness :
  exists parsed,
    PerMessageSnappyOffer.parse both_flags_swapped = Ok parsed /\
    PerMessageSnappyOffer.getExtensionString parsed
    = PerMessageSnappyOffer.getExtensionString
        (PerMessageSnappyOffer.mk (VBool true) (VBool true)).
Proof.
  apply (Offer_wire_roundtrip
           (PerMessageSnappyOffer.mk (VBool true) (VBool true)) both_flags_swapped).
  vm_compute. apply perm_swap.
Defined.

(** C3. When [PerMessageSnappyOffer.parse] returns an offer, its
    [acceptNoContextTakeover] is [True] exactly if [params] has the key
    [c2s_no_context_takeover] and its [requestNoContextTakeover] is
    [True] exactly if [params] has the key [s2c_no_context_takeover], and
    [False] otherwise.  The mapping with both keys bound to [[True]], in
    either iteration order, parses to the offer with both flags [True],
    whose string is
    "permessage-snappy; c2s_no_context_takeover; s2c_no_context_takeover". *)
Theorem Offer_parse_binds_flags :
  (forall params offer,
      PerMessageSnappyOffer.parse params = Ok offer ->
      PerMessageSnappyOffer.acceptNoContextTakeover offer
      = VBool (dict_contains params "c2s_no_context_takeover") /\
      PerMessageSnappyOffer.requestNoContextTakeover offer
      = VBool (dict_contains params "s2c_no_context_takeover"))
  /\
  (forall params,
      params = both_flags \/ params = both_flags_swapped ->
      PerMessageSnappyOffer.parse params
      = Ok (PerMessageSnappyOffer.mk (VBool true) (VBool true)))
  /\
  PerMessageSnappyOffer.getExtensionString
    (PerMessageSnappyOffer.mk (VBool true) (VBool true))
  = "permessage-snappy; c2s_no_context_takeover; s2c_no_context_takeover".
Proof.
  split; [|split].
  - intros params offer H. unfold PerMessageSnappyOffer.parse in H.
    destruct (PerMessageSnappyOffer.parse_loop _ _ _ _) as [[a b]|e] eqn:Hloop;
      simpl in H; [|discriminate].
    injection H as <-.
    apply parse_loop_flags in Hloop as [-> ->].
    now rewrite !dict_contains_keys.
  - intros params [-> | ->]; reflexivity.
  - reflexivity.
Qed.

Lemma Offer_parse_binds_flags_witness :
  PerMessageSnappyOffer.acceptNoContextTakeover
    (PerMessageSnappyOffer.mk (VBool false) (VBool true))
  = VBool (dict_contains [("s2c_no_context_takeover", [VInt 1])]
                         "c2s_no_context_takeover") /\
  PerMessageSnappyOffer.requestNoContextTakeover
    (PerMessageSnappyOffer.mk (VBool false) (VBool true))
  = VBool (dict_contains [("s2c_no_context_takeover", [VInt 1])]
                         "s2c_no_context_takeover").
Proof.
  apply (proj1 Offer_parse_binds_flags [("s2c_no_context_takeover", [VInt 1])]).
  reflexivity.
Defined.

(** C4, refuted as stated.  In the mapping that binds [foo] to [[True]]
    and, after it, [c2s_no_context_takeover] to two values, a key has more
    than one value, yet both parsers raise the illegal-parameter exception
    for [foo], not the multiple-occurrence one. *)
Lemma parse_repeated_not_always_reported :
  dict_getitem foo_then_repeated "c2s_no_context_takeover"
  = Ok [VBool true; VBool true] /\
  PerMessageSnappyOffer.parse foo_then_repeated = Raise (IllegalParameter "foo") /\
  PerMessageSnappyResponse.parse foo_then_repeated = Raise (IllegalParameter "foo") /\
  ~ (exists p, PerMessageSnappyOffer.parse foo_then_repeated
               = Raise (MultipleOccurrence p)) /\
  ~ (exists p, PerMessageSnappyResponse.parse foo_then_repeated
               = Raise (MultipleOccurrence p)).
Proof.
  repeat split; try reflexivity; intros [p H]; vm_compute in H; discriminate.
Qed.

(** C4, amended.  If some key of [params] is bound to more than one value,
    [PerMessageSnappyOffer.parse] and [PerMessageSnappyResponse.parse] both
    raise, whatever the values are.  The exception is the
    multiple-occurrence one, naming that key, when every key visited
    before it passes the loop (a known name bound to one value equal to
    [True]).  In any case it is the exception of the first key in
    iteration order that does not pass: both parsers raise the [offence]
    of that key. *)
Theorem parse_repeated_raises params p vs :
  dict_getitem params p = Ok vs ->
  (1 < length vs)%nat ->
  (raised (PerMessageSnappyOffer.parse params) = true /\
   raised (PerMessageSnappyResponse.parse params) = true) /\
  (forall before after,
      dict_keys params = (before ++ p :: after)%list ->
      forallb (passes params) before = true ->
      PerMessageSnappyOffer.parse params = Raise (MultipleOccurrence p) /\
      PerMessageSnappyResponse.parse params = Raise (MultipleOccurrence p)) /\
  (exists before k after e,
      dict_keys params = (before ++ k :: after)%list /\
      forallb (passes params) before = true /\
      passes params k = false /\
      offence params k = Some e /\
      PerMessageSnappyOffer.parse params = Raise e /\
      PerMessageSnappyResponse.parse params = Raise e).
Proof.
  intros Hget Hlen.
  pose proof (dict_getitem_In params p vs Hget) as Hin.
  assert (Hraise : raised (PerMessageSnappyOffer.parse params) = true).
  { unfold PerMessageSnappyOffer.parse.
    pose proof (parse_loop_repeated_raises params p vs Hget Hlen
                  (dict_keys params) false false Hin) as H.
    now destruct (PerMessageSnappyOffer.parse_loop _ _ _ _). }
  split; [split|split].
  - exact Hraise.
  - rewrite Response_parse_as_Offer.
    now destruct (PerMessageSnappyOffer.parse params).
  - intros before after Hkeys Hall.
    assert (H : PerMessageSnappyOffer.parse params = Raise (MultipleOccurrence p)).
    { unfold PerMessageSnappyOffer.parse. rewrite Hkeys.
      now rewrite (parse_loop_first_repeated params before p after vs). }
    split; [exact H|].
    rewrite Response_parse_as_Offer. now rewrite H.
  - assert (Hp : passes params p = false).
    { unfold passes. rewrite Hget.
      destruct vs as [|v [|v' vs]]; simpl in Hlen; [lia|lia|reflexivity]. }
    assert (Hall : forallb (passes params) (dict_keys params) = false).
    { destruct (forallb _ _) eqn:E; [|reflexivity].
      rewrite forallb_forall in E. now rewrite (E p Hin) in Hp. }
    destruct (forallb_first_false _ _ Hall)
      as (before & k & after & Hkeys & Hbefore & Hk).
    destruct (parse_loop_offence params k Hk) as (e & Hoff & Hturn).
    exists before, k, after, e.
    repeat split; try assumption;
      now apply (parse_first_offender params before k after e Hkeys Hbefore).
Qed.

Lemma parse_repeated_raises_witness :
  PerMessageSnappyOffer.parse s2c_then_repeated
  = Raise (MultipleOccurrence "c2s_no_context_takeover") /\
  PerMessageSnappyResponse.parse s2c_then_repeated
  = Raise (MultipleOccurrence "c2s_no_context_takeover").
Proof.
  refine (proj1 (proj2 (parse_repeated_raises s2c_then_repeated
                          "c2s_no_context_takeover" [VStr "x"; VInt 7] _ _))
                ["s2c_no_context_takeover"] [] _ _).
  - reflexivity.
  - simpl. lia.
  - reflexivity.
  - reflexivity.
Defined.

(** C8, refuted as stated.  No value of a type other than [bool] gets past
    the type test of the constructor: with an offer that does not accept
    and the truthy integer 1 the exception is the one for the type, not the
    one of the consent check, and the same holds for every offer and every
    non-boolean value. *)
Lemma OfferAccept_init_type_test_not_skipped :
  PerMessageSnappyOfferAccept.init
    (AnOffer (PerMessageSnappyOffer.mk (VBool false) (VBool false)))
    (Some (VInt 1))
  = Raise (InvalidRequestType TInt) /\
  ~ (exists offer v,
        PyType_eqb (py_type v) TBool = false /\
        PerMessageSnappyOfferAccept.init (AnOffer offer) (Some v)
        <> Raise (InvalidRequestType (py_type v))).
Proof.
  split; [reflexivity|].
  intros (offer & v & Hty & Hne). apply Hne.
  unfold PerMessageSnappyOfferAccept.init. now rewrite Hty.
Qed.

(** C8, amended.  The constructor tests [type(requestNoContextTakeover)]
    against [bool] before the consent check: for every offer and every
    value of another type it raises the invalid-type exception, whatever
    the consent check would have said. *)
Theorem OfferAccept_init_checks_type offer v :
  PyType_eqb (py_type v) TBool = false ->
  PerMessageSnappyOfferAccept.init (AnOffer offer) (Some v)
  = Raise (InvalidRequestType (py_type v)).
Proof.
  intros Hty. unfold PerMessageSnappyOfferAccept.init. now rewrite Hty.
Qed.

Lemma OfferAccept_init_checks_type_witness :
  PerMessageSnappyOfferAccept.init
    (AnOffer (PerMessageSnappyOffer.mk (VBool true) (VBool false)))
    (Some (VStr "yes"))
  = Raise (InvalidRequestType TStr).
Proof.
  apply (OfferAccept_init_checks_type
           (PerMessageSnappyOffer.mk (VBool true) (VBool false)) (VStr "yes")).
  reflexivity.
Defined.

(** C9. [PerMessageSnappyOffer()] with no argument has
    [acceptNoContextTakeover = True] and [requestNoContextTakeover =
    False]; its string is "permessage-snappy; c2s_no_context_takeover",
    which is not the bare extension name. *)
Theorem Offer_init_defaults :
  PerMessageSnappyOffer.init None None
  = PerMessageSnappyOffer.mk (VBool true) (VBool false) /\
  PerMessageSnappyOffer.getExtensionString (PerMessageSnappyOffer.init None None)
  = "permessage-snappy; c2s_no_context_takeover" /\
  (PerMessageSnappyOffer.getExtensionString (PerMessageSnappyOffer.init None None)
   =? EXTENSION_NAME) = false.
Proof. repeat split. Qed.

(** ** The session *)

Section Session.

Import PerMessageSnappy.
Context (codec : StreamCodec).

Local Abbreviation World := (PerMessageSnappy.World codec).

Lemma startCompressMessage_cases (w : World) :
  startCompressMessage codec w = (Ok VNone, set_new_compressor codec w) \/
  startCompressMessage codec w = (Ok VNone, w) /\
  is_None (_compressor (self w)) = false.
Proof.
  unfold startCompressMessage.
  destruct (_compressor (self w)) as [c|]; simpl.
  - destruct (py_truth (_isServer (self w)));
      [destruct (py_truth (s2c_no_context_takeover (self w)))
      |destruct (py_truth (c2s_no_context_takeover (self w)))]; auto.
  - destruct (py_truth (_isServer (self w))); auto.
Qed.

Lemma startDecompressMessage_cases (w : World) :
  startDecompressMessage codec w = (Ok VNone, set_new_decompressor codec w) \/
  startDecompressMessage codec w = (Ok VNone, w) /\
  is_None (_decompressor (self w)) = false.
Proof.
  unfold startDecompressMessage.
  destruct (_decompressor (self w)) as [d|]; simpl.
  - destruct (py_truth (_isServer (self w)));
      [destruct (py_truth (c2s_no_context_takeover (self w)))
      |destruct (py_truth (s2c_no_context_takeover (self w)))]; auto.
  - destruct (py_truth (_isServer (self w))); auto.
Qed.

(** No call takes a context away. *)
Lemma call_keeps_compressor (c : Call) (w : World) :
  is_None (_compressor (self w)) = false ->
  is_None (_compressor (self (snd (call codec c w)))) = false.
Proof.
  intros H. destruct c; simpl; try exact H.
  - destruct (startCompressMessage_cases w) as [-> | [-> _]]; [reflexivity|exact H].
  - unfold compressMessageData.
    destruct (_compressor (self w)) as [x|]; [|discriminate].
    now destruct (add_chunk codec (c_state x) data).
  - destruct (startDecompressMessage_cases w) as [-> | [-> _]]; exact H.
  - unfold decompressMessageData.
    destruct (_decompressor (self w)) as [x|]; [|exact H].
    now destruct (decompress codec (d_state x) data).
Qed.

Lemma call_keeps_decompressor (c : Call) (w : World) :
  is_None (_decompressor (self w)) = false ->
  is_None (_decompressor (self (snd (call codec c w)))) = false.
Proof.
  intros H. destruct c; simpl; try exact H.
  - destruct (startCompressMessage_cases w) as [-> | [-> _]]; exact H.
  - unfold compressMessageData.
    destruct (_compressor (self w)) as [x|]; [|exact H].
    now destruct (add_chunk codec (c_state x) data).
  - destruct (startDecompressMessage_cases w) as [-> | [-> _]]; [reflexivity|exact H].
  - unfold decompressMessageData.
    destruct (_decompressor (self w)) as [x|]; [|discriminate].
    now destruct (decompress codec (d_state x) data).
Qed.

Lemma run_keeps_compressor (cs : list Call) :
  forall w : World,
    is_None (_compressor (self w)) = false ->
    is_None (_compressor (self (run codec cs w))) = false.
Proof.
  induction cs as [|c cs IH]; intros w H; [exact H|].
  apply IH. now apply call_keeps_compressor.
Qed.

Lemma run_keeps_decompressor (cs : list Call) :
  forall w : World,
    is_None (_decompressor (self w)) = false ->
    is_None (_decompressor (self (run codec cs w))) = false.
Proof.
  induction cs as [|c cs IH]; intros w H; [exact H|].
  apply IH. now apply call_keeps_decompressor.
Qed.

(** The identities held stay below the creation count, from a new
    session on. *)
Lemma init_ids_below isServer s2c c2s n :
  ids_below {| self := init codec isServer s2c c2s; created := n |}.
Proof. split; intros x H; discriminate. Qed.

Lemma call_ids_below (c : Call) (w : World) :
  ids_below w -> ids_below (snd (call codec c w)).
Proof.
  intros Hw. destruct c; simpl; try exact Hw.
  - destruct (startCompressMessage_cases w) as [-> | [-> _]]; [|exact Hw].
    destruct Hw as [Hc Hd].
    split; simpl; intros x H.
    + injection H as <-. simpl. lia.
    + apply Hd in H. lia.
  - unfold compressMessageData.
    destruct (_compressor (self w)) as [x|] eqn:E; [|exact Hw].
    destruct Hw as [Hc Hd].
    destruct (add_chunk codec (c_state x) data) as [out st]; simpl.
    split; simpl; intros y H.
    + injection H as <-. simpl. now apply Hc.
    + now apply Hd.
  - destruct (startDecompressMessage_cases w) as [-> | [-> _]]; [|exact Hw].
    destruct Hw as [Hc Hd].
    split; simpl; intros x H.
    + apply Hc in H. lia.
    + injection H as <-. simpl. lia.
  - unfold decompressMessageData.
    destruct (_decompressor (self w)) as [x|] eqn:E; [|exact Hw].
    destruct Hw as [Hc Hd].
    destruct (decompress codec (d_state x) data) as [out st]; simpl.
    split; simpl; intros y H.
    + now apply Hc.
    + injection H as <-. simpl. now apply Hd.
Qed.

Lemma run_ids_below (cs : list Call) :
  forall w : World, ids_below w -> ids_below (run codec cs w).
Proof.
  induction cs as [|c cs IH]; intros w H; [exact H|].
  apply IH. now apply call_ids_below.
Qed.

End Session.

(** C5. [startCompressMessage] installs a newly created compressor exactly
    when the session has none yet or the flag of its outbound direction is
    set, [s2c_no_context_takeover] for a server and
    [c2s_no_context_takeover] for a client; otherwise nothing changes.
    The new instance is none the session held before.  A server with
    [s2c_no_context_takeover] set holds different instances after a first
    and after a second call; with the flag clear it holds the same one. *)
Theorem startCompressMessage_resets (codec : StreamCodec)
        (w : PerMessageSnappy.World codec) :
  let s := PerMessageSnappy.self w in
  let flag := if py_truth (PerMessageSnappy._isServer s)
              then PerMessageSnappy.s2c_no_context_takeover s
              else PerMessageSnappy.c2s_no_context_takeover s in
  let w1 := snd (PerMessageSnappy.startCompressMessage codec w) in
  let w2 := snd (PerMessageSnappy.startCompressMessage codec w1) in
  (PerMessageSnappy.is_None (PerMessageSnappy._compressor s) || py_truth flag = true ->
   PerMessageSnappy._compressor (PerMessageSnappy.self w1)
   = Some {| PerMessageSnappy.c_id := PerMessageSnappy.created w;
             PerMessageSnappy.c_state := cstate_new codec |} /\
   PerMessageSnappy.created w1 = S (PerMessageSnappy.created w) /\
   (ids_below w ->
    forall old, PerMessageSnappy._compressor s = Some old ->
                PerMessageSnappy.c_id old <> PerMessageSnappy.created w)) /\
  (PerMessageSnappy.is_None (PerMessageSnappy._compressor s) || py_truth flag = false ->
   w1 = w) /\
  (py_truth (PerMessageSnappy._isServer s) = true ->
   py_truth (PerMessageSnappy.s2c_no_context_takeover s) = true ->
   exists c1 c2,
     PerMessageSnappy._compressor (PerMessageSnappy.self w1) = Some c1 /\
     PerMessageSnappy._compressor (PerMessageSnappy.self w2) = Some c2 /\
     PerMessageSnappy.c_id c1 <> PerMessageSnappy.c_id c2) /\
  (py_truth (PerMessageSnappy._isServer s) = true ->
   py_truth (PerMessageSnappy.s2c_no_context_takeover s) = false ->
   exists c,
     PerMessageSnappy._compressor (PerMessageSnappy.self w1) = Some c /\
     PerMessageSnappy._compressor (PerMessageSnappy.self w2) = Some c).
Proof.
  destruct w as [[srv comp decomp s2c c2s] n].
  unfold PerMessageSnappy.startCompressMessage; simpl.
  destruct (py_truth srv) eqn:Hsrv, comp as [c|],
           (py_truth s2c) eqn:Hs, (py_truth c2s) eqn:Hc;
    simpl; rewrite ?Hsrv, ?Hs, ?Hc; simpl.
  all: split; [|split; [|split]]; try discriminate; try reflexivity.
  all: try (intros _; split; [reflexivity|split; [reflexivity|]];
            intros [Hb _] old Hold; apply Hb in Hold; simpl in Hold; lia).
  all: try (intros _ _; do 2 eexists; repeat split; simpl; lia).
  all: try (intros _ _; eexists; split; reflexivity).
Qed.

Lemma startCompressMessage_resets_witness :
  (exists c1 c2,
      PerMessageSnappy._compressor
        (PerMessageSnappy.self
           (PerMessageSnappy.run copy_codec
              [PerMessageSnappy.StartCompress] resetting_server)) = Some c1 /\
      PerMessageSnappy._compressor
        (PerMessageSnappy.self
           (PerMessageSnappy.run copy_codec
              [PerMessageSnappy.StartCompress; PerMessageSnappy.StartCompress]
              resetting_server)) = Some c2 /\
      PerMessageSnappy.c_id c1 <> PerMessageSnappy.c_id c2) /\
  (exists c,
      PerMessageSnappy._compressor
        (PerMessageSnappy.self
           (PerMessageSnappy.run copy_codec
              [PerMessageSnappy.StartCompress] keeping_server)) = Some c /\
      PerMessageSnappy._compressor
        (PerMessageSnappy.self
           (PerMessageSnappy.run copy_codec
              [PerMessageSnappy.StartCompress; PerMessageSnappy.StartCompress]
              keeping_server)) = Some c) /\
  snd (PerMessageSnappy.startCompressMessage copy_codec
         (PerMessageSnappy.run copy_codec
            [PerMessageSnappy.StartCompress] keeping_server))
  = PerMessageSnappy.run copy_codec [PerMessageSnappy.StartCompress] keeping_server /\
  PerMessageSnappy.created
    (snd (PerMessageSnappy.startCompressMessage copy_codec resetting_server)) = 1%nat.
Proof.
  split; [|split; [|split]].
  - apply (proj1 (proj2 (proj2
             (startCompressMessage_resets copy_codec resetting_server))));
      reflexivity.
  - apply (proj2 (proj2 (proj2
             (startCompressMessage_resets copy_codec keeping_server))));
      reflexivity.
  - apply (proj1 (proj2
             (startCompressMessage_resets copy_codec
                (PerMessageSnappy.run copy_codec
                   [PerMessageSnappy.StartCompress] keeping_server)))).
    reflexivity.
  - apply (proj1 (startCompressMessage_resets copy_codec resetting_server)).
    reflexivity.
Defined.

(** C6. The two factories build the same session: from an accepted offer
    whose offer requests [s] and whose own request is [c], and from an
    accepted response with [s2c_no_context_takeover = s] and
    [c2s_no_context_takeover = c], the session has the given [isServer],
    no compressor, no decompressor, [s2c_no_context_takeover = s] and
    [c2s_no_context_takeover = c]. *)
Theorem factories_agree (codec : StreamCodec)
        (isServer acceptNoContextTakeover : PyVal) (s c : bool) :
  let offerAccept :=
    PerMessageSnappyOfferAccept.mk
      (PerMessageSnappyOffer.mk acceptNoContextTakeover (VBool s)) (VBool c) in
  let responseAccept :=
    PerMessageSnappyResponseAccept.mk
      (PerMessageSnappyResponse.mk (VBool c) (VBool s)) in
  PerMessageSnappy.createFromOfferAccept codec isServer offerAccept
  = PerMessageSnappy.createFromResponseAccept codec isServer responseAccept /\
  PerMessageSnappy.createFromOfferAccept codec isServer offerAccept
  = {| PerMessageSnappy._isServer := isServer;
       PerMessageSnappy._compressor := None;
       PerMessageSnappy._decompressor := None;
       PerMessageSnappy.s2c_no_context_takeover := VBool s;
       PerMessageSnappy.c2s_no_context_takeover := VBool c |}.
Proof. split; reflexivity. Qed.

(** C7. [endCompressMessage] returns the empty string and
    [endDecompressMessage] returns [None]; each leaves the session, both
    codec contexts included, and the creation count as they were. *)
Theorem end_message_changes_nothing (codec : StreamCodec)
        (w : PerMessageSnappy.World codec) :
  PerMessageSnappy.endCompressMessage codec w = (Ok (VStr EmptyString), w) /\
  PerMessageSnappy.endDecompressMessage codec w = (Ok VNone, w).
Proof. split; reflexivity. Qed.

(** C10. After [startCompressMessage] the session has a compressor and
    after [startDecompressMessage] a decompressor, for either role.  Once
    started, whatever calls follow, [compressMessageData] finds a
    compressor and returns what its [add_chunk] returns, and
    [decompressMessageData] finds a decompressor and returns what its
    [decompress] returns: neither raises for want of a context. *)
Theorem started_context_is_there (codec : StreamCodec)
        (w : PerMessageSnappy.World codec) :
  PerMessageSnappy.is_None
    (PerMessageSnappy._compressor
       (PerMessageSnappy.self (snd (PerMessageSnappy.startCompressMessage codec w))))
  = false /\
  PerMessageSnappy.is_None
    (PerMessageSnappy._decompressor
       (PerMessageSnappy.self (snd (PerMessageSnappy.startDecompressMessage codec w))))
  = false /\
  (forall cs data, exists c,
      PerMessageSnappy._compressor
        (PerMessageSnappy.self
           (PerMessageSnappy.run codec cs
              (snd (PerMessageSnappy.startCompressMessage codec w)))) = Some c /\
      fst (PerMessageSnappy.compressMessageData codec data
             (PerMessageSnappy.run codec cs
                (snd (PerMessageSnappy.startCompressMessage codec w))))
      = match fst (add_chunk codec (PerMessageSnappy.c_state c) data) with
        | Some b => Ok (VStr b)
        | None => Raise CodecError
        end) /\
  (forall cs data, exists d,
      PerMessageSnappy._decompressor
        (PerMessageSnappy.self
           (PerMessageSnappy.run codec cs
              (snd (PerMessageSnappy.startDecompressMessage codec w)))) = Some d /\
      fst (PerMessageSnappy.decompressMessageData codec data
             (PerMessageSnappy.run codec cs
                (snd (PerMessageSnappy.startDecompressMessage codec w))))
      = match fst (decompress codec (PerMessageSnappy.d_state d) data) with
        | Some b => Ok (VStr b)
        | None => Raise CodecError
        end).
Proof.
  assert (Hc : PerMessageSnappy.is_None
                 (PerMessageSnappy._compressor
                    (PerMessageSnappy.self
                       (snd (PerMessageSnappy.startCompressMessage codec w)))) = false).
  { destruct (startCompressMessage_cases codec w) as [-> | [-> H]];
      [reflexivity|exact H]. }
  assert (Hd : PerMessageSnappy.is_None
                 (PerMessageSnappy._decompressor
                    (PerMessageSnappy.self
                       (snd (PerMessageSnappy.startDecompressMessage codec w)))) = false).
  { destruct (startDecompressMessage_cases codec w) as [-> | [-> H]];
      [reflexivity|exact H]. }
  split; [exact Hc|split; [exact Hd|split]]; intros cs data.
  - apply (run_keeps_compressor codec cs) in Hc.
    unfold PerMessageSnappy.compressMessageData.
    destruct (PerMessageSnappy._compressor _) as [c|]; [|discriminate].
    exists c. split; [reflexivity|].
    now destruct (add_chunk codec (PerMessageSnappy.c_state c) data).
  - apply (run_keeps_decompressor codec cs) in Hd.
    unfold PerMessageSnappy.decompressMessageData.
    destruct (PerMessageSnappy._decompressor _) as [d|]; [|discriminate].
    exists d. split; [reflexivity|].
    now destruct (decompress codec (PerMessageSnappy.d_state d) data).
Qed.

(** * Further properties *)

(** ** The parsers, beyond repeated parameters *)

Lemma parse_loop_all_pass params ks a b :
  forallb (passes params) ks = true ->
  PerMessageSnappyOffer.parse_loop params ks a b
  = Ok (a || existsb (fun k => k =? "c2s_no_context_takeover") ks,
        b || existsb (fun k => k =? "s2c_no_context_takeover") ks).
Proof.
  intros Hall.
  destruct (parse_loop_passes params ks Hall [] a b) as (a' & b' & H).
  rewrite app_nil_r in H. simpl in H.
  destruct (parse_loop_flags params ks a b a' b' H) as [-> ->].
  exact H.
Qed.

Lemma parse_loop_some_fails params ks :
  forallb (passes params) ks = false ->
  forall a b, raised (PerMessageSnappyOffer.parse_loop params ks a b) = true.
Proof.
  induction ks as [|k ks IH]; intros Hall a b; [discriminate|].
  simpl in Hall. simpl. unfold passes in Hall.
  destruct (dict_getitem params k) as [[|v [|v' vs]]|e]; try reflexivity.
  simpl.
  destruct (k =? "c2s_no_context_takeover"); simpl in Hall.
  - destruct (py_ne_True v); [reflexivity|]. now apply IH.
  - destruct (k =? "s2c_no_context_takeover"); simpl in Hall; [|reflexivity].
    destruct (py_ne_True v); [reflexivity|]. now apply IH.
Qed.

Lemma dict_getitem_keys (d : Dict) p :
  In p (dict_keys d) -> exists vs, dict_getitem d p = Ok vs.
Proof.
  induction d as [|[k ws] d IH]; simpl; [easy|].
  intros [-> | Hin].
  - rewrite String.eqb_refl. now exists ws.
  - destruct (k =? p); [now exists ws|now apply IH].
Qed.

Lemma Offer_parse_succeeds_iff_aux params :
  (forallb (passes params) (dict_keys params) = true ->
   PerMessageSnappyOffer.parse params
   = Ok (PerMessageSnappyOffer.mk
           (VBool (dict_contains params "c2s_no_context_takeover"))
           (VBool (dict_contains params "s2c_no_context_takeover")))) /\
  (forallb (passes params) (dict_keys params) = false ->
   raised (PerMessageSnappyOffer.parse params) = true).
Proof.
  split; intros Hall; unfold PerMessageSnappyOffer.parse.
  - now rewrite parse_loop_all_pass.
  - pose proof (parse_loop_some_fails params _ Hall false false) as H.
    now destruct (PerMessageSnappyOffer.parse_loop _ _ _ _).
Qed.

(** X1. [PerMessageSnappyOffer.parse] returns an offer exactly when every
    key of [params] passes the loop: it is [c2s_no_context_takeover] or
    [s2c_no_context_takeover] and is bound to one value equal to [True].
    The offer then has each flag set by the presence of its key; in every
    other case [parse] raises. *)
Theorem Offer_parse_succeeds_iff params :
  (forallb (passes params) (dict_keys params) = true ->
   PerMessageSnappyOffer.parse params
   = Ok (PerMessageSnappyOffer.mk
           (VBool (dict_contains params "c2s_no_context_takeover"))
           (VBool (dict_contains params "s2c_no_context_takeover")))) /\
  (forallb (passes params) (dict_keys params) = false ->
   raised (PerMessageSnappyOffer.parse params) = true).
Proof. exact (Offer_parse_succeeds_iff_aux params). Qed.

Lemma Offer_parse_succeeds_iff_witness :
  PerMessageSnappyOffer.parse [("s2c_no_context_takeover", [VInt 1])]
  = Ok (PerMessageSnappyOffer.mk (VBool false) (VBool true)) /\
  raised (PerMessageSnappyOffer.parse c2s_without_value) = true.
Proof.
  split.
  - apply (proj1 (Offer_parse_succeeds_iff [("s2c_no_context_takeover", [VInt 1])])).
    reflexivity.
  - apply (proj2 (Offer_parse_succeeds_iff c2s_without_value)).
    reflexivity.
Defined.

(** X2. [PerMessageSnappyResponse.parse] accepts the mappings
    [PerMessageSnappyOffer.parse] accepts and raises the same exception on
    the others; the response has [c2s_no_context_takeover] where the offer
    has [acceptNoContextTakeover] and [s2c_no_context_takeover] where the
    offer has [requestNoContextTakeover]. *)
Theorem Response_parse_mirrors_Offer params :
  PerMessageSnappyResponse.parse params
  = match PerMessageSnappyOffer.parse params with
    | Ok offer =>
        Ok (PerMessageSnappyResponse.mk
              (PerMessageSnappyOffer.acceptNoContextTakeover offer)
              (PerMessageSnappyOffer.requestNoContextTakeover offer))
    | Raise e => Raise e
    end.
Proof.
  rewrite Response_parse_as_Offer.
  now destruct (PerMessageSnappyOffer.parse params).
Qed.

(** X3. A key that is neither parameter name makes both parsers raise,
    wherever it stands in [params]; when it is bound to one value and all
    keys visited before it pass, the exception is the illegal-parameter one
    naming it. *)
Theorem parse_unknown_key params p :
  In p (dict_keys params) ->
  known_name p = false ->
  (raised (PerMessageSnappyOffer.parse params) = true /\
   raised (PerMessageSnappyResponse.parse params) = true) /\
  (forall before after v,
      dict_keys params = (before ++ p :: after)%list ->
      forallb (passes params) before = true ->
      dict_getitem params p = Ok [v] ->
      PerMessageSnappyOffer.parse params = Raise (IllegalParameter p) /\
      PerMessageSnappyResponse.parse params = Raise (IllegalParameter p)).
Proof.
  intros Hin Hname.
  apply orb_false_iff in Hname as [Hc Hs].
  assert (Hp : passes params p = false).
  { unfold passes. destruct (dict_getitem params p) as [[|v [|? ?]]|e]; try reflexivity.
    now rewrite Hc, Hs. }
  assert (Hall : forallb (passes params) (dict_keys params) = false).
  { destruct (forallb _ _) eqn:E; [|reflexivity].
    rewrite forallb_forall in E. now rewrite (E p Hin) in Hp. }
  split.
  - pose proof (proj2 (Offer_parse_succeeds_iff_aux params) Hall) as H.
    split; [exact H|].
    rewrite Response_parse_as_Offer.
    now destruct (PerMessageSnappyOffer.parse params).
  - intros before after v Hkeys Hbefore Hget.
    apply (parse_first_offender params before p after); try assumption.
    intros a b. simpl. rewrite Hget. simpl. now rewrite Hc, Hs.
Qed.

Lemma parse_unknown_key_witness :
  PerMessageSnappyOffer.parse foo_then_repeated = Raise (IllegalParameter "foo") /\
  PerMessageSnappyResponse.parse foo_then_repeated = Raise (IllegalParameter "foo").
Proof.
  refine (proj2 (parse_unknown_key foo_then_repeated "foo" _ _)
                [] ["c2s_no_context_takeover"] (VBool true) _ _ _).
  - simpl. left. reflexivity.
  - reflexivity.
  - reflexivity.
  - reflexivity.
  - reflexivity.
Defined.

(** X4. A parameter name bound to one value that is not equal to [True],
    all keys visited before it passing, makes both parsers raise the
    illegal-value exception carrying that value and that name. *)
Theorem parse_illegal_value params before p after v :
  dict_keys params = (before ++ p :: after)%list ->
  forallb (passes params) before = true ->
  known_name p = true ->
  dict_getitem params p = Ok [v] ->
  py_ne_True v = true ->
  PerMessageSnappyOffer.parse params = Raise (IllegalValue v p) /\
  PerMessageSnappyResponse.parse params = Raise (IllegalValue v p).
Proof.
  intros Hkeys Hbefore Hname Hget Hval.
  apply (parse_first_offender params before p after); try assumption.
  intros a b. simpl. rewrite Hget. simpl. rewrite Hval.
  unfold known_name in Hname.
  destruct (p =? "c2s_no_context_takeover"); [reflexivity|].
  simpl in Hname. now rewrite Hname.
Qed.

Lemma parse_illegal_value_witness :
  PerMessageSnappyOffer.parse
    [("c2s_no_context_takeover", [VBool true]);
     ("s2c_no_context_takeover", [VStr "true"])]
  = Raise (IllegalValue (VStr "true") "s2c_no_context_takeover") /\
  PerMessageSnappyResponse.parse
    [("c2s_no_context_takeover", [VBool true]);
     ("s2c_no_context_takeover", [VStr "true"])]
  = Raise (IllegalValue (VStr "true") "s2c_no_context_takeover").
Proof.
  apply (parse_illegal_value
           [("c2s_no_context_takeover", [VBool true]);
            ("s2c_no_context_takeover", [VStr "true"])]
           ["c2s_no_context_takeover"] "s2c_no_context_takeover" []
           (VStr "true")); reflexivity.
Defined.

(** X5. A key bound to an empty sequence of values, all keys visited
    before it passing, makes both parsers raise [IndexError], whatever the
    key is: [params[p][0]] is evaluated before the name is looked at. *)
Theorem parse_empty_values params before p after :
  dict_keys params = (before ++ p :: after)%list ->
  forallb (passes params) before = true ->
  dict_getitem params p = Ok [] ->
  PerMessageSnappyOffer.parse params = Raise IndexError /\
  PerMessageSnappyResponse.parse params = Raise IndexError.
Proof.
  intros Hkeys Hbefore Hget.
  apply (parse_first_offender params before p after); try assumption.
  intros a b. simpl. now rewrite Hget.
Qed.

Lemma parse_empty_values_witness :
  PerMessageSnappyOffer.parse c2s_without_value = Raise IndexError /\
  PerMessageSnappyResponse.parse c2s_without_value = Raise IndexError.
Proof.
  apply (parse_empty_values c2s_without_value
           ["s2c_no_context_takeover"] "c2s_no_context_takeover" []);
    reflexivity.
Defined.

Lemma parse_loop_no_KeyError params ks :
  (forall k, In k ks -> In k (dict_keys params)) ->
  forall a b e,
    PerMessageSnappyOffer.parse_loop params ks a b = Raise e ->
    is_KeyError e = false.
Proof.
  induction ks as [|k ks IH]; intros Hsub a b e H; simpl in H; [discriminate|].
  destruct (dict_getitem_keys params k) as [vs Hget]; [apply Hsub; now left|].
  rewrite Hget in H. simpl in H.
  assert (Hsub' : forall k', In k' ks -> In k' (dict_keys params))
    by (intros k' Hk'; apply Hsub; now right).
  destruct (1 <? length vs)%nat; [now injection H as <-|].
  destruct vs as [|val ?]; simpl in H; [now injection H as <-|].
  destruct (k =? "c2s_no_context_takeover").
  - destruct (py_ne_True val); [now injection H as <-|]. now apply IH in H.
  - destruct (k =? "s2c_no_context_takeover"); [|now injection H as <-].
    destruct (py_ne_True val); [now injection H as <-|]. now apply IH in H.
Qed.

(** X6. Neither parser ever raises [KeyError]: every [params[p]] is
    evaluated for a key [p] the loop took from [params] itself. *)
Theorem parse_never_KeyError params e :
  PerMessageSnappyOffer.parse params = Raise e \/
  PerMessageSnappyResponse.parse params = Raise e ->
  is_KeyError e = false.
Proof.
  assert (Hoffer : PerMessageSnappyOffer.parse params = Raise e ->
                   is_KeyError e = false).
  { unfold PerMessageSnappyOffer.parse. intros H.
    destruct (PerMessageSnappyOffer.parse_loop _ _ _ _) as [fl|e'] eqn:Hloop;
      simpl in H; [discriminate|].
    injection H as <-.
    now apply (parse_loop_no_KeyError params (dict_keys params)) in Hloop. }
  intros [H | H]; [now apply Hoffer|].
  rewrite Response_parse_as_Offer in H.
  destruct (PerMessageSnappyOffer.parse params) as [o|e'];
    simpl in H; [discriminate|].
  injection H as <-. now apply Hoffer.
Qed.

Lemma parse_never_KeyError_witness :
  is_KeyError (IllegalParameter "foo") = false.
Proof.
  apply (parse_never_KeyError foo_then_repeated (IllegalParameter "foo")).
  left. reflexivity.
Defined.

(** ** The order of the mapping *)

Lemma dict_getitem_sound (d : Dict) p :
  match dict_getitem d p with
  | Ok vs => In (p, vs) d
  | Raise e => e = KeyError p /\ ~ In p (dict_keys d)
  end.
Proof.
  induction d as [|[k ws] d IH]; simpl; [now split|].
  destruct (k =? p) eqn:E.
  - apply String.eqb_eq in E. subst k. now left.
  - apply String.eqb_neq in E.
    destruct (dict_getitem d p) as [vs|e].
    + now right.
    + destruct IH as [-> Hnot]. split; [reflexivity|].
      intros [H | H]; [now apply E|now apply Hnot].
Qed.

Lemma dict_getitem_complete (d : Dict) p vs :
  NoDup (dict_keys d) -> In (p, vs) d -> dict_getitem d p = Ok vs.
Proof.
  induction d as [|[k ws] d IH]; simpl; intros Hnd Hin; [easy|].
  inversion Hnd as [|? ? Hk Hnd']; subst.
  destruct Hin as [Heq | Hin].
  - injection Heq as -> ->. now rewrite String.eqb_refl.
  - destruct (k =? p) eqn:E; [|now apply IH].
    apply String.eqb_eq in E. subst k.
    exfalso. apply Hk. now apply (in_map fst) in Hin.
Qed.

Lemma dict_getitem_Permutation (d d' : Dict) p :
  NoDup (dict_keys d) -> Permutation d d' ->
  dict_getitem d p = dict_getitem d' p.
Proof.
  intros Hnd Hperm.
  assert (Hnd' : NoDup (dict_keys d')).
  { apply (Permutation_NoDup (l := dict_keys d)); [|exact Hnd].
    now apply Permutation_map. }
  pose proof (dict_getitem_sound d p) as H.
  destruct (dict_getitem d p) as [vs|e].
  - symmetry. apply dict_getitem_complete; [exact Hnd'|].
    now apply (Permutation_in _ Hperm).
  - destruct H as [-> Hnot].
    pose proof (dict_getitem_sound d' p) as H'.
    destruct (dict_getitem d' p) as [vs|e'].
    + exfalso. apply Hnot. apply (in_map fst) in H'.
      apply (Permutation_in (l := dict_keys d')); [|exact H'].
      apply Permutation_map. now apply Permutation_sym.
    + now destruct H' as [-> _].
Qed.

Lemma forallb_Permutation {A : Type} (f : A -> bool) (l l' : list A) :
  Permutation l l' -> forallb f l = forallb f l'.
Proof.
  induction 1 as [|x l l' _ IH|x y l|l l' l'' _ IH1 _ IH2]; simpl.
  - reflexivity.
  - now rewrite IH.
  - now destruct (f x), (f y).
  - now rewrite IH1.
Qed.

Lemma existsb_Permutation {A : Type} (f : A -> bool) (l l' : list A) :
  Permutation l l' -> existsb f l = existsb f l'.
Proof.
  induction 1 as [|x l l' _ IH|x y l|l l' l'' _ IH1 _ IH2]; simpl.
  - reflexivity.
  - now rewrite IH.
  - now destruct (f x), (f y).
  - now rewrite IH1.
Qed.

Lemma passes_Permutation (d d' : Dict) :
  NoDup (dict_keys d) -> Permutation d d' ->
  forallb (passes d) (dict_keys d) = forallb (passes d') (dict_keys d').
Proof.
  intros Hnd Hperm.
  rewrite (forallb_Permutation (passes d) (dict_keys d) (dict_keys d'))
    by now apply Permutation_map.
  assert (Hext : forall k, passes d k = passes d' k).
  { intros k. unfold passes.
    now rewrite (dict_getitem_Permutation d d' k Hnd Hperm). }
  induction (dict_keys d') as [|k ks IH]; simpl; [reflexivity|].
  now rewrite Hext, IH.
Qed.

(** X7. For a mapping with distinct keys, the order in which the keys
    are visited decides neither whether [PerMessageSnappyOffer.parse]
    raises nor which offer it returns: a reordered mapping parses to the
    same offer, or raises as well (the exception may differ). *)
Theorem Offer_parse_order_irrelevant params params' :
  NoDup (dict_keys params) ->
  Permutation params params' ->
  match PerMessageSnappyOffer.parse params with
  | Ok offer => PerMessageSnappyOffer.parse params' = Ok offer
  | Raise _ => raised (PerMessageSnappyOffer.parse params') = true
  end.
Proof.
  intros Hnd Hperm.
  pose proof (passes_Permutation params params' Hnd Hperm) as Hsame.
  destruct (forallb (passes params) (dict_keys params)) eqn:Hall.
  - rewrite (proj1 (Offer_parse_succeeds_iff_aux params) Hall).
    rewrite (proj1 (Offer_parse_succeeds_iff_aux params')) by now rewrite <- Hsame.
    unfold dict_contains.
    now rewrite !(existsb_Permutation _ (dict_keys params) (dict_keys params'))
      by now apply Permutation_map.
  - pose proof (proj2 (Offer_parse_succeeds_iff_aux params) Hall) as H.
    destruct (PerMessageSnappyOffer.parse params); [discriminate|].
    apply (proj2 (Offer_parse_succeeds_iff_aux params')). now rewrite <- Hsame.
Qed.

Lemma Offer_parse_order_irrelevant_witness :
  PerMessageSnappyOffer.parse both_flags_swapped
  = Ok (PerMessageSnappyOffer.mk (VBool true) (VBool true)).
Proof.
  refine (Offer_parse_order_irrelevant both_flags both_flags_swapped _ _).
  - repeat constructor; simpl; intuition discriminate.
  - apply perm_swap.
Defined.

(** X8. The test on a value is [val != True], and Python takes the
    integer 1 for equal to [True].  Among [None], booleans, integers and
    strings: a mapping with one parameter name bound to [True] or to 1
    parses, to the offer with the flag of that name set; bound to [None],
    to [False], to any other integer or to any string, the text "true"
    included, it raises the illegal-value exception with that value and
    that name. *)
Theorem Offer_parse_value_test p v :
  known_name p = true ->
  (v = VBool true \/ v = VInt 1 ->
   PerMessageSnappyOffer.parse [(p, [v])]
   = Ok (PerMessageSnappyOffer.mk
           (VBool (p =? "c2s_no_context_takeover"))
           (VBool (p =? "s2c_no_context_takeover")))) /\
  (v = VNone \/ v = VBool false \/
   (exists z, v = VInt z /\ z <> 1%Z) \/ (exists s, v = VStr s) ->
   PerMessageSnappyOffer.parse [(p, [v])] = Raise (IllegalValue v p)).
Proof.
  intros Hname. unfold known_name in Hname.
  assert (Hyes : py_ne_True v = false ->
                 PerMessageSnappyOffer.parse [(p, [v])]
                 = Ok (PerMessageSnappyOffer.mk
                         (VBool (p =? "c2s_no_context_takeover"))
                         (VBool (p =? "s2c_no_context_takeover")))).
  { intros Hv. unfold PerMessageSnappyOffer.parse; simpl.
    rewrite String.eqb_refl. simpl. rewrite Hv.
    destruct (p =? "c2s_no_context_takeover") eqn:Hc.
    - apply String.eqb_eq in Hc. subst p. reflexivity.
    - simpl in Hname. now rewrite Hname. }
  assert (Hno : py_ne_True v = true ->
                PerMessageSnappyOffer.parse [(p, [v])] = Raise (IllegalValue v p)).
  { intros Hv. unfold PerMessageSnappyOffer.parse; simpl.
    rewrite String.eqb_refl. simpl. rewrite Hv.
    destruct (p =? "c2s_no_context_takeover"); [reflexivity|].
    simpl in Hname. now rewrite Hname. }
  split.
  - intros [-> | ->]; now apply Hyes.
  - intros [-> | [-> | [(z & -> & Hz) | (s & ->)]]]; apply Hno; try reflexivity.
    simpl. apply negb_true_iff. now apply Z.eqb_neq.
Qed.

Lemma Offer_parse_value_test_witness :
  PerMessageSnappyOffer.parse [("c2s_no_context_takeover", [VInt 1])]
  = Ok (PerMessageSnappyOffer.mk (VBool true) (VBool false)) /\
  PerMessageSnappyOffer.parse [("s2c_no_context_takeover", [VStr "true"])]
  = Raise (IllegalValue (VStr "true") "s2c_no_context_takeover").
Proof.
  split.
  - apply (proj1 (Offer_parse_value_test "c2s_no_context_takeover" (VInt 1)
                    eq_refl)).
    right. reflexivity.
  - apply (proj2 (Offer_parse_value_test "s2c_no_context_takeover" (VStr "true")
                    eq_refl)).
    right. right. right. now exists "true".
Defined.

(** ** Accepting an offer *)

Lemma Offer_parse_flags_are_bool params offer :
  PerMessageSnappyOffer.parse params = Ok offer ->
  exists a r, offer = PerMessageSnappyOffer.mk (VBool a) (VBool r).
Proof.
  unfold PerMessageSnappyOffer.parse.
  destruct (PerMessageSnappyOffer.parse_loop _ _ _ _) as [[a r]|e];
    simpl; [|discriminate].
  intros H. injection H as <-. now exists a, r.
Qed.

(** X9. What a successful [PerMessageSnappyOfferAccept] construction
    guarantees: the first argument is an offer, the accept object holds it,
    its own [requestNoContextTakeover] is a boolean, the one passed or
    [False] when none was, and it is [True] only if the offer accepts.
    Leaving the flag out never fails for an offer. *)
Theorem OfferAccept_init_guarantees :
  (forall obj r accept,
      PerMessageSnappyOfferAccept.init obj r = Ok accept ->
      exists offer b,
        obj = AnOffer offer /\
        accept = PerMessageSnappyOfferAccept.mk offer (VBool b) /\
        (r = Some (VBool b) \/ r = None /\ b = false) /\
        (b = true ->
         py_truth (PerMessageSnappyOffer.acceptNoContextTakeover offer) = true)) /\
  (forall offer,
      PerMessageSnappyOfferAccept.init (AnOffer offer) None
      = Ok (PerMessageSnappyOfferAccept.mk offer (VBool false))).
Proof.
  split; [|reflexivity].
  intros [offer|resp|v] r accept H; simpl in H; try discriminate.
  unfold PerMessageSnappyOfferAccept.init in H.
  destruct r as [[|b|z|s]|]; simpl in H; try discriminate.
  - destruct b; simpl in H.
    + destruct (py_truth (PerMessageSnappyOffer.acceptNoContextTakeover offer))
        eqn:Ha; simpl in H; [|discriminate].
      injection H as <-. exists offer, true. repeat split; auto.
    + injection H as <-. exists offer, false. repeat split; auto.
      discriminate.
  - injection H as <-. exists offer, false. repeat split; auto.
    discriminate.
Qed.

Lemma OfferAccept_init_guarantees_witness :
  exists offer b,
    AnOffer (PerMessageSnappyOffer.mk (VInt 2) VNone) = AnOffer offer /\
    PerMessageSnappyOfferAccept.mk (PerMessageSnappyOffer.mk (VInt 2) VNone) (VBool true)
    = PerMessageSnappyOfferAccept.mk offer (VBool b) /\
    (Some (VBool true) = Some (VBool b) \/ Some (VBool true) = None /\ b = false) /\
    (b = true ->
     py_truth (PerMessageSnappyOffer.acceptNoContextTakeover offer) = true).
Proof.
  apply (proj1 OfferAccept_init_guarantees
               (AnOffer (PerMessageSnappyOffer.mk (VInt 2) VNone))
               (Some (VBool true))).
  reflexivity.
Defined.

(** X10. The [__json__] snapshots of an offer and of an accepted offer
    lose nothing: two offers, or two accept objects, with the same
    snapshot are the same. *)
Theorem json_of_negotiation_objects_injective :
  (forall o1 o2,
      PerMessageSnappyOffer.__json__ o1 = PerMessageSnappyOffer.__json__ o2 ->
      o1 = o2) /\
  (forall a1 a2,
      PerMessageSnappyOfferAccept.__json__ a1 = PerMessageSnappyOfferAccept.__json__ a2 ->
      a1 = a2).
Proof.
  split.
  - intros [x1 y1] [x2 y2] H. unfold PerMessageSnappyOffer.__json__ in H.
    simpl in H. now injection H as -> ->.
  - intros [[x1 y1] r1] [[x2 y2] r2] H.
    unfold PerMessageSnappyOfferAccept.__json__, PerMessageSnappyOffer.__json__ in H.
    simpl in H. now injection H as -> -> ->.
Qed.

Lemma json_of_negotiation_objects_injective_witness :
  PerMessageSnappyOffer.init None None
  = PerMessageSnappyOffer.mk (VBool true) (VBool false).
Proof.
  apply (proj1 json_of_negotiation_objects_injective). reflexivity.
Defined.

(** X11. The two ends of a handshake agree.  The server parses an offer
    and accepts it with a boolean [requestNoContextTakeover]; the client
    reads the string of that accept object back into a mapping (in
    whichever key order), parses it as a response and accepts it.  Then
    both constructions succeed on the client, and the session the client
    builds from the accepted response has the same two flags as the session
    the server builds from the accepted offer. *)
Theorem handshake_ends_agree (codec : StreamCodec)
        params offer (b : bool) accept params' (clientIsServer serverIsServer : PyVal) :
  PerMessageSnappyOffer.parse params = Ok offer ->
  PerMessageSnappyOfferAccept.init (AnOffer offer) (Some (VBool b)) = Ok accept ->
  Permutation
    (snd (parseExtension (PerMessageSnappyOfferAccept.getExtensionString accept)))
    params' ->
  exists response responseAccept,
    PerMessageSnappyResponse.parse params' = Ok response /\
    PerMessageSnappyResponseAccept.init (AResponse response) = Ok responseAccept /\
    PerMessageSnappy.s2c_no_context_takeover
      (PerMessageSnappy.createFromResponseAccept codec clientIsServer responseAccept)
    = PerMessageSnappy.s2c_no_context_takeover
        (PerMessageSnappy.createFromOfferAccept codec serverIsServer accept) /\
    PerMessageSnappy.c2s_no_context_takeover
      (PerMessageSnappy.createFromResponseAccept codec clientIsServer responseAccept)
    = PerMessageSnappy.c2s_no_context_takeover
        (PerMessageSnappy.createFromOfferAccept codec serverIsServer accept).
Proof.
  intros Hparse Hinit Hperm.
  destruct (Offer_parse_flags_are_bool params offer Hparse) as (a & r & ->).
  clear Hparse.
  destruct a, r, b; simpl in Hinit; try discriminate;
    injection Hinit as <-; vm_compute in Hperm.
  all: try (apply Permutation_length_2_inv in Hperm as [-> | ->]).
  all: try (apply Permutation_length_1_inv in Hperm as ->).
  all: try (apply Permutation_nil in Hperm as ->).
  all: do 2 eexists; (split; [vm_compute; reflexivity|]);
    split; [reflexivity|split; reflexivity].
Qed.

Lemma handshake_ends_agree_witness :
  exists response responseAccept,
    PerMessageSnappyResponse.parse both_flags_swapped = Ok response /\
    PerMessageSnappyResponseAccept.init (AResponse response) = Ok responseAccept /\
    PerMessageSnappy.s2c_no_context_takeover
      (PerMessageSnappy.createFromResponseAccept copy_codec (VBool false) responseAccept)
    = PerMessageSnappy.s2c_no_context_takeover
        (PerMessageSnappy.createFromOfferAccept copy_codec (VBool true)
           (PerMessageSnappyOfferAccept.mk
              (PerMessageSnappyOffer.mk (VBool true) (VBool true)) (VBool true))) /\
    PerMessageSnappy.c2s_no_context_takeover
      (PerMessageSnappy.createFromResponseAccept copy_codec (VBool false) responseAccept)
    = PerMessageSnappy.c2s_no_context_takeover
        (PerMessageSnappy.createFromOfferAccept copy_codec (VBool true)
           (PerMessageSnappyOfferAccept.mk
              (PerMessageSnappyOffer.mk (VBool true) (VBool true)) (VBool true))).
Proof.
  apply (handshake_ends_agree copy_codec both_flags
           (PerMessageSnappyOffer.mk (VBool true) (VBool true)) true
           (PerMessageSnappyOfferAccept.mk
              (PerMessageSnappyOffer.mk (VBool true) (VBool true)) (VBool true))
           both_flags_swapped (VBool false) (VBool true)).
  - reflexivity.
  - reflexivity.
  - vm_compute. apply Permutation_refl.
Defined.

(** ** The session over a connection's life *)

Section SessionRuns.

Import PerMessageSnappy.
Context (codec : StreamCodec).

Local Abbreviation World := (PerMessageSnappy.World codec).

Lemma call_keeps_configuration (c : Call) (w : World) :
  _isServer (self (snd (call codec c w))) = _isServer (self w) /\
  s2c_no_context_takeover (self (snd (call codec c w)))
  = s2c_no_context_takeover (self w) /\
  c2s_no_context_takeover (self (snd (call codec c w)))
  = c2s_no_context_takeover (self w).
Proof.
  destruct c; simpl; auto.
  - destruct (startCompressMessage_cases codec w) as [-> | [-> _]]; auto.
  - unfold compressMessageData.
    destruct (_compressor (self w)) as [x|]; auto.
    destruct (add_chunk codec (c_state x) data); auto.
  - destruct (startDecompressMessage_cases codec w) as [-> | [-> _]]; auto.
  - unfold decompressMessageData.
    destruct (_decompressor (self w)) as [x|]; auto.
    destruct (decompress codec (d_state x) data); auto.
Qed.

Lemma run_keeps_configuration_aux (cs : list Call) :
  forall w : World,
    _isServer (self (run codec cs w)) = _isServer (self w) /\
    s2c_no_context_takeover (self (run codec cs w))
    = s2c_no_context_takeover (self w) /\
    c2s_no_context_takeover (self (run codec cs w))
    = c2s_no_context_takeover (self w).
Proof.
  induction cs as [|c cs IH]; intros w; [auto|].
  simpl. destruct (IH (snd (call codec c w))) as (-> & -> & ->).
  apply call_keeps_configuration.
Qed.

Lemma call_keeps_outbound_flag (c : Call) (w : World) :
  outbound_flag (self (snd (call codec c w))) = outbound_flag (self w).
Proof.
  unfold outbound_flag.
  now destruct (call_keeps_configuration c w) as (-> & -> & ->).
Qed.

Lemma call_keeps_inbound_flag (c : Call) (w : World) :
  inbound_flag (self (snd (call codec c w))) = inbound_flag (self w).
Proof.
  unfold inbound_flag.
  now destruct (call_keeps_configuration c w) as (-> & -> & ->).
Qed.

(** [startCompressMessage] and [startDecompressMessage] by the flag of
    the direction. *)
Lemma startCompressMessage_by_flag (w : World) :
  startCompressMessage codec w
  = (Ok VNone,
     if is_None (_compressor (self w)) || py_truth (outbound_flag (self w))
     then set_new_compressor codec w else w).
Proof.
  unfold startCompressMessage, outbound_flag.
  destruct (py_truth (_isServer (self w)));
    now destruct (is_None (_compressor (self w)) || _).
Qed.

Lemma startDecompressMessage_by_flag (w : World) :
  startDecompressMessage codec w
  = (Ok VNone,
     if is_None (_decompressor (self w)) || py_truth (inbound_flag (self w))
     then set_new_decompressor codec w else w).
Proof.
  unfold startDecompressMessage, inbound_flag.
  destruct (py_truth (_isServer (self w)));
    now destruct (is_None (_decompressor (self w)) || _).
Qed.

(** X12. [startDecompressMessage] installs a newly created decompressor
    exactly when the session has none yet or the flag of its inbound
    direction is set, [c2s_no_context_takeover] for a server and
    [s2c_no_context_takeover] for a client; otherwise nothing changes.  The
    new instance is none the session held before, and the compressor is
    left alone. *)
Theorem startDecompressMessage_resets (w : World) :
  let s := self w in
  let flag := if py_truth (_isServer s)
              then c2s_no_context_takeover s
              else s2c_no_context_takeover s in
  let w1 := snd (startDecompressMessage codec w) in
  (is_None (_decompressor s) || py_truth flag = true ->
   _decompressor (self w1)
   = Some {| d_id := created w; d_state := dstate_new codec |} /\
   _compressor (self w1) = _compressor s /\
   created w1 = S (created w) /\
   (ids_below w ->
    forall old, _decompressor s = Some old -> d_id old <> created w)) /\
  (is_None (_decompressor s) || py_truth flag = false -> w1 = w).
Proof.
  intros s flag w1. subst w1.
  rewrite startDecompressMessage_by_flag. fold s.
  change (inbound_flag s) with flag.
  destruct (is_None (_decompressor s) || py_truth flag); simpl.
  - split; [|discriminate]. intros _. repeat split.
    intros [_ Hd] old Hold. apply Hd in Hold. lia.
  - split; [discriminate|reflexivity].
Qed.

(** X13. Nothing the transport calls changes the configuration of a
    session: after any run of calls [_isServer] and the two flags are what
    they were, and so is the [__json__] snapshot. *)
Theorem run_keeps_configuration (cs : list Call) (w : World) :
  _isServer (self (run codec cs w)) = _isServer (self w) /\
  s2c_no_context_takeover (self (run codec cs w))
  = s2c_no_context_takeover (self w) /\
  c2s_no_context_takeover (self (run codec cs w))
  = c2s_no_context_takeover (self w) /\
  __json__ codec (self (run codec cs w)) = __json__ codec (self w).
Proof.
  destruct (run_keeps_configuration_aux cs w) as (H1 & H2 & H3).
  repeat split; try assumption.
  unfold __json__. now rewrite H2, H3.
Qed.

Lemma call_keeps_contexts_apart (c : Call) (w : World) :
  ids_below w -> contexts_apart w -> contexts_apart (snd (call codec c w)).
Proof.
  intros [Hc Hd] Hap. destruct c; simpl; try exact Hap.
  - destruct (startCompressMessage_cases codec w) as [-> | [-> _]]; [|exact Hap].
    intros x y Hx Hy. simpl in Hx, Hy. injection Hx as <-. simpl.
    apply Hd in Hy. lia.
  - unfold compressMessageData.
    destruct (_compressor (self w)) as [x|] eqn:E; [|exact Hap].
    destruct (add_chunk codec (c_state x) data) as [out st]; simpl.
    intros x' y Hx Hy. simpl in Hx, Hy. injection Hx as <-. simpl.
    now apply Hap.
  - destruct (startDecompressMessage_cases codec w) as [-> | [-> _]]; [|exact Hap].
    intros x y Hx Hy. simpl in Hx, Hy. injection Hy as <-. simpl.
    apply Hc in Hx. lia.
  - unfold decompressMessageData.
    destruct (_decompressor (self w)) as [y|] eqn:E; [|exact Hap].
    destruct (decompress codec (d_state y) data) as [out st]; simpl.
    intros x y' Hx Hy. simpl in Hx, Hy. injection Hy as <-. simpl.
    now apply Hap.
Qed.

(** X14. From a new session on, whatever is called, the compressor and
    the decompressor are two different objects, each created before the
    current creation count. *)
Theorem contexts_never_alias (isServer s2c c2s : PyVal) (n : nat) (cs : list Call) :
  ids_below (run codec cs {| self := init codec isServer s2c c2s; created := n |}) /\
  contexts_apart (run codec cs {| self := init codec isServer s2c c2s; created := n |}).
Proof.
  assert (H : forall (w : World),
             ids_below w /\ contexts_apart w ->
             ids_below (run codec cs w) /\ contexts_apart (run codec cs w)).
  { induction cs as [|c cs IH]; intros w [Hb Ha]; [now split|].
    simpl. apply IH. split.
    - now apply call_ids_below.
    - now apply call_keeps_contexts_apart. }
  apply H. split.
  - apply init_ids_below.
  - intros c d Hc. discriminate.
Qed.

End SessionRuns.

Lemma contexts_never_alias_witness :
  PerMessageSnappy.c_id (PerMessageSnappy.Build_StreamCompressor copy_codec 1 tt)
  <> PerMessageSnappy.d_id (PerMessageSnappy.Build_StreamDecompressor copy_codec 0 tt).
Proof.
  refine (proj2 (contexts_never_alias copy_codec (VBool true) (VBool true) (VBool true) 0
                   [PerMessageSnappy.StartDecompress; PerMessageSnappy.StartCompress])
                (PerMessageSnappy.Build_StreamCompressor copy_codec 1 tt)
                (PerMessageSnappy.Build_StreamDecompressor copy_codec 0 tt) _ _);
    reflexivity.
Defined.

Lemma startDecompressMessage_resets_witness :
  PerMessageSnappy._decompressor
    (PerMessageSnappy.self
       (snd (PerMessageSnappy.startDecompressMessage copy_codec resetting_client)))
  = Some (PerMessageSnappy.Build_StreamDecompressor copy_codec 0 tt) /\
  snd (PerMessageSnappy.startDecompressMessage copy_codec
         (PerMessageSnappy.run copy_codec
            [PerMessageSnappy.StartDecompress] keeping_server))
  = PerMessageSnappy.run copy_codec [PerMessageSnappy.StartDecompress] keeping_server.
Proof.
  split.
  - apply (proj1 (startDecompressMessage_resets copy_codec resetting_client)).
    reflexivity.
  - apply (proj2 (startDecompressMessage_resets copy_codec
                    (PerMessageSnappy.run copy_codec
                       [PerMessageSnappy.StartDecompress] keeping_server))).
    reflexivity.
Defined.

(** ** The contexts over a connection's life *)

Section SessionContexts.

Import PerMessageSnappy.
Context (codec : StreamCodec).

Local Abbreviation World := (PerMessageSnappy.World codec).

(** What one call does to the compressor a session holds. *)
Lemma call_compressor (c : Call) (w : World) (x : StreamCompressor codec) :
  _compressor (self w) = Some x ->
  py_truth (outbound_flag (self w)) = false \/ is_StartCompress c = false ->
  _compressor (self (snd (call codec c w)))
  = Some {| c_id := c_id x; c_state := fed (c_state x) [c] |}.
Proof.
  intros Hx Hkeep. destruct c; simpl.
  - rewrite startCompressMessage_by_flag, Hx.
    destruct Hkeep as [-> | H]; [|discriminate].
    simpl. rewrite Hx. now destruct x.
  - unfold compressMessageData. rewrite Hx.
    now destruct (add_chunk codec (c_state x) data).
  - rewrite Hx. now destruct x.
  - destruct (startDecompressMessage_cases codec w) as [-> | [-> _]];
      simpl; rewrite Hx; now destruct x.
  - unfold decompressMessageData.
    destruct (_decompressor (self w)) as [y|].
    + destruct (decompress codec (d_state y) data). simpl.
      rewrite Hx. now destruct x.
    + simpl. rewrite Hx. now destruct x.
  - rewrite Hx. now destruct x.
Qed.

Lemma call_decompressor (c : Call) (w : World) (y : StreamDecompressor codec) :
  _decompressor (self w) = Some y ->
  py_truth (inbound_flag (self w)) = false \/ is_StartDecompress c = false ->
  _decompressor (self (snd (call codec c w)))
  = Some {| d_id := d_id y; d_state := fed_back (d_state y) [c] |}.
Proof.
  intros Hy Hkeep. destruct c; simpl.
  - destruct (startCompressMessage_cases codec w) as [-> | [-> _]];
      simpl; rewrite Hy; now destruct y.
  - unfold compressMessageData.
    destruct (_compressor (self w)) as [x|].
    + destruct (add_chunk codec (c_state x) data). simpl.
      rewrite Hy. now destruct y.
    + simpl. rewrite Hy. now destruct y.
  - rewrite Hy. now destruct y.
  - rewrite startDecompressMessage_by_flag, Hy.
    destruct Hkeep as [-> | H]; [|discriminate].
    simpl. rewrite Hy. now destruct y.
  - unfold decompressMessageData. rewrite Hy.
    now destruct (decompress codec (d_state y) data).
  - rewrite Hy. now destruct y.
Qed.

Lemma run_compressor (cs : list Call) :
  forall (w : World) (x : StreamCompressor codec),
    _compressor (self w) = Some x ->
    py_truth (outbound_flag (self w)) = false \/
    forallb (fun c => negb (is_StartCompress c)) cs = true ->
    _compressor (self (run codec cs w))
    = Some {| c_id := c_id x; c_state := fed (c_state x) cs |}.
Proof.
  induction cs as [|c cs IH]; intros w x Hx Hkeep.
  - simpl. rewrite Hx. now destruct x.
  - simpl run.
    assert (Hc : py_truth (outbound_flag (self w)) = false \/
                 is_StartCompress c = false).
    { destruct Hkeep as [H | H]; [now left|right].
      simpl in H. apply andb_true_iff in H as [H _].
      now apply negb_true_iff in H. }
    rewrite (IH _ _ (call_compressor c w x Hx Hc)).
    + simpl c_id. simpl c_state. now destruct c.
    + rewrite call_keeps_outbound_flag.
      destruct Hkeep as [H | H]; [now left|right].
      simpl in H. now apply andb_true_iff in H as [_ H].
Qed.

Lemma run_decompressor (cs : list Call) :
  forall (w : World) (y : StreamDecompressor codec),
    _decompressor (self w) = Some y ->
    py_truth (inbound_flag (self w)) = false \/
    forallb (fun c => negb (is_StartDecompress c)) cs = true ->
    _decompressor (self (run codec cs w))
    = Some {| d_id := d_id y; d_state := fed_back (d_state y) cs |}.
Proof.
  induction cs as [|c cs IH]; intros w y Hy Hkeep.
  - simpl. rewrite Hy. now destruct y.
  - simpl run.
    assert (Hc : py_truth (inbound_flag (self w)) = false \/
                 is_StartDecompress c = false).
    { destruct Hkeep as [H | H]; [now left|right].
      simpl in H. apply andb_true_iff in H as [H _].
      now apply negb_true_iff in H. }
    rewrite (IH _ _ (call_decompressor c w y Hy Hc)).
    + simpl d_id. simpl d_state. now destruct c.
    + rewrite call_keeps_inbound_flag.
      destruct Hkeep as [H | H]; [now left|right].
      simpl in H. now apply andb_true_iff in H as [_ H].
Qed.

Lemma run_without_start_compress (cs : list Call) :
  forall w : World,
    _compressor (self w) = None ->
    forallb (fun c => negb (is_StartCompress c)) cs = true ->
    _compressor (self (run codec cs w)) = None.
Proof.
  induction cs as [|c cs IH]; intros w Hw Hall; [exact Hw|].
  simpl in Hall. apply andb_true_iff in Hall as [Hhd Hall].
  simpl. apply IH; [|exact Hall].
  destruct c; simpl; try exact Hw; try discriminate.
  - unfold compressMessageData. now rewrite Hw.
  - now destruct (startDecompressMessage_cases codec w) as [-> | [-> _]].
  - unfold decompressMessageData.
    destruct (_decompressor (self w)) as [y|]; [|exact Hw].
    now destruct (decompress codec (d_state y) data).
Qed.

Lemma run_without_start_decompress (cs : list Call) :
  forall w : World,
    _decompressor (self w) = None ->
    forallb (fun c => negb (is_StartDecompress c)) cs = true ->
    _decompressor (self (run codec cs w)) = None.
Proof.
  induction cs as [|c cs IH]; intros w Hw Hall; [exact Hw|].
  simpl in Hall. apply andb_true_iff in Hall as [Hhd Hall].
  simpl. apply IH; [|exact Hall].
  destruct c; simpl; try exact Hw; try discriminate.
  - now destruct (startCompressMessage_cases codec w) as [-> | [-> _]].
  - unfold compressMessageData.
    destruct (_compressor (self w)) as [x|]; [|exact Hw].
    now destruct (add_chunk codec (c_state x) data).
  - unfold decompressMessageData. now rewrite Hw.
Qed.

(** X15. A session has no context of a direction before the first start
    call of that direction: from a new session, after calls none of which
    is [startCompressMessage], [compressMessageData] raises
    [AttributeError] and changes nothing; likewise
    [decompressMessageData] when none was [startDecompressMessage]. *)
Theorem data_before_start_raises (isServer s2c c2s : PyVal) (n : nat)
        (cs : list Call) (data : string) :
  let w := run codec cs {| self := init codec isServer s2c c2s; created := n |} in
  (forallb (fun c => negb (is_StartCompress c)) cs = true ->
   compressMessageData codec data w = (Raise AttributeError, w)) /\
  (forallb (fun c => negb (is_StartDecompress c)) cs = true ->
   decompressMessageData codec data w = (Raise AttributeError, w)).
Proof.
  intros w. split; intros Hall.
  - unfold compressMessageData. subst w.
    now rewrite run_without_start_compress.
  - unfold decompressMessageData. subst w.
    now rewrite run_without_start_decompress.
Qed.

(** X16. With context takeover, a context lives as long as the
    connection: when the flag of the outbound direction is clear, the
    compressor the session holds is, after any run of calls, the same
    instance, in the state the chunks of all the [compressMessageData]
    calls of the run, message after message, have brought it to; likewise
    the decompressor when the flag of the inbound direction is clear. *)
Theorem context_taken_over (cs : list Call) (w : World) :
  (forall x,
      _compressor (self w) = Some x ->
      py_truth (outbound_flag (self w)) = false ->
      _compressor (self (run codec cs w))
      = Some {| c_id := c_id x; c_state := fed (c_state x) cs |}) /\
  (forall y,
      _decompressor (self w) = Some y ->
      py_truth (inbound_flag (self w)) = false ->
      _decompressor (self (run codec cs w))
      = Some {| d_id := d_id y; d_state := fed_back (d_state y) cs |}).
Proof.
  split.
  - intros x Hx Hflag. apply run_compressor; auto.
  - intros y Hy Hflag. apply run_decompressor; auto.
Qed.

(** X17. Without context takeover, a message starts from nothing: when
    the flag of the outbound direction is set, the compressor after
    [startCompressMessage] and the calls of the message is a new instance
    in the state the chunks of this message alone bring a new compressor
    to, whatever the session went through before; likewise the
    decompressor when the flag of the inbound direction is set. *)
Theorem context_reset_forgets (cs : list Call) (w : World) :
  (py_truth (outbound_flag (self w)) = true ->
   forallb (fun c => negb (is_StartCompress c)) cs = true ->
   _compressor (self (run codec (StartCompress :: cs) w))
   = Some {| c_id := created w; c_state := fed (cstate_new codec) cs |}) /\
  (py_truth (inbound_flag (self w)) = true ->
   forallb (fun c => negb (is_StartDecompress c)) cs = true ->
   _decompressor (self (run codec (StartDecompress :: cs) w))
   = Some {| d_id := created w; d_state := fed_back (dstate_new codec) cs |}).
Proof.
  split; intros Hflag Hall; simpl run.
  - rewrite startCompressMessage_by_flag, Hflag, orb_true_r. simpl snd.
    now rewrite (run_compressor cs (set_new_compressor codec w)
                   {| c_id := created w; c_state := cstate_new codec |})
      by auto.
  - rewrite startDecompressMessage_by_flag, Hflag, orb_true_r. simpl snd.
    now rewrite (run_decompressor cs (set_new_decompressor codec w)
                   {| d_id := created w; d_state := dstate_new codec |})
      by auto.
Qed.

(** X18. The two directions do not touch each other: calls of the
    outbound direction leave the decompressor as it is, instance and
    state, and calls of the inbound direction leave the compressor as it
    is. *)
Theorem directions_independent (cs : list Call) (w : World) :
  (forallb compress_side cs = true ->
   _decompressor (self (run codec cs w)) = _decompressor (self w)) /\
  (forallb (fun c => negb (compress_side c)) cs = true ->
   _compressor (self (run codec cs w)) = _compressor (self w)).
Proof.
  revert w. induction cs as [|c cs IH]; intros w; [now split|].
  simpl. split; intros Hall; apply andb_true_iff in Hall as [Hc Hall].
  - rewrite (proj1 (IH _) Hall).
    destruct c; simpl; try reflexivity; try discriminate.
    + now destruct (startCompressMessage_cases codec w) as [-> | [-> _]].
    + unfold compressMessageData.
      destruct (_compressor (self w)) as [x|]; [|reflexivity].
      now destruct (add_chunk codec (c_state x) data).
  - rewrite (proj2 (IH _) Hall).
    destruct c; simpl; try reflexivity; try discriminate.
    + now destruct (startDecompressMessage_cases codec w) as [-> | [-> _]].
    + unfold decompressMessageData.
      destruct (_decompressor (self w)) as [y|]; [|reflexivity].
      now destruct (decompress codec (d_state y) data).
Qed.

End SessionContexts.

Lemma data_before_start_raises_witness :
  PerMessageSnappy.compressMessageData copy_codec "abc"
    (PerMessageSnappy.run copy_codec
       [PerMessageSnappy.StartDecompress; PerMessageSnappy.EndCompress]
       keeping_server)
  = (Raise AttributeError,
     PerMessageSnappy.run copy_codec
       [PerMessageSnappy.StartDecompress; PerMessageSnappy.EndCompress]
       keeping_server).
Proof.
  apply (proj1 (data_before_start_raises copy_codec
                  (VBool true) (VBool false) (VBool false) 0
                  [PerMessageSnappy.StartDecompress; PerMessageSnappy.EndCompress]
                  "abc")).
  reflexivity.
Defined.

Lemma context_taken_over_witness :
  PerMessageSnappy._compressor
    (PerMessageSnappy.self
       (PerMessageSnappy.run copy_codec
          [PerMessageSnappy.CompressData "a"; PerMessageSnappy.EndCompress;
           PerMessageSnappy.StartCompress; PerMessageSnappy.CompressData "b"]
          (PerMessageSnappy.run copy_codec
             [PerMessageSnappy.StartCompress] keeping_server)))
  = Some (PerMessageSnappy.Build_StreamCompressor copy_codec 0 tt).
Proof.
  apply (proj1 (context_taken_over copy_codec
                  [PerMessageSnappy.CompressData "a"; PerMessageSnappy.EndCompress;
                   PerMessageSnappy.StartCompress; PerMessageSnappy.CompressData "b"]
                  (PerMessageSnappy.run copy_codec
                     [PerMessageSnappy.StartCompress] keeping_server))
               (PerMessageSnappy.Build_StreamCompressor copy_codec 0 tt));
    reflexivity.
Defined.

Lemma context_reset_forgets_witness :
  PerMessageSnappy._compressor
    (PerMessageSnappy.self
       (PerMessageSnappy.run copy_codec
          [PerMessageSnappy.StartCompress; PerMessageSnappy.CompressData "b"]
          (PerMessageSnappy.run copy_codec
             [PerMessageSnappy.StartCompress; PerMessageSnappy.CompressData "a"]
             resetting_server)))
  = Some (PerMessageSnappy.Build_StreamCompressor copy_codec 1 tt).
Proof.
  apply (proj1 (context_reset_forgets copy_codec
                  [PerMessageSnappy.CompressData "b"]
                  (PerMessageSnappy.run copy_codec
                     [PerMessageSnappy.StartCompress; PerMessageSnappy.CompressData "a"]
                     resetting_server)));
    reflexivity.
Defined.

Lemma directions_independent_witness :
  PerMessageSnappy._decompressor
    (PerMessageSnappy.self
       (PerMessageSnappy.run copy_codec
          [PerMessageSnappy.StartCompress; PerMessageSnappy.CompressData "a"]
          resetting_server))
  = PerMessageSnappy._decompressor (PerMessageSnappy.self resetting_server).
Proof.
  apply (proj1 (directions_independent copy_codec
                  [PerMessageSnappy.StartCompress; PerMessageSnappy.CompressData "a"]
                  resetting_server)).
  reflexivity.
Defined.

(** ** A direction end to end *)

Section EndToEnd.

Import PerMessageSnappy.
Context (codec : StreamCodec).
Variable R : cstate codec -> dstate codec -> Prop.
Hypothesis codec_lossless : lossless codec R.

Local Abbreviation World := (PerMessageSnappy.World codec).

Lemma compressMessageData_keeps_flag (data : string) (w : World) :
  outbound_flag (self (snd (compressMessageData codec data w)))
  = outbound_flag (self w).
Proof. exact (call_keeps_outbound_flag codec (CompressData data) w). Qed.

Lemma decompressMessageData_keeps_flag (data : string) (w : World) :
  inbound_flag (self (snd (decompressMessageData codec data w)))
  = inbound_flag (self w).
Proof. exact (call_keeps_inbound_flag codec (DecompressData data) w). Qed.

(** The chunks of a message, once both sides hold related contexts. *)
Lemma chunks_come_through (chunks : list string) :
  forall (ws wr : World) c d,
    _compressor (self ws) = Some c ->
    _decompressor (self wr) = Some d ->
    R (c_state c) (d_state d) ->
    exists outs ws' wr' c' d',
      compress_chunks chunks ws = (map (fun o => Ok (VStr o)) outs, ws') /\
      decompress_chunks outs wr = (map (fun x => Ok (VStr x)) chunks, wr') /\
      _compressor (self ws') = Some c' /\
      _decompressor (self wr') = Some d' /\
      R (c_state c') (d_state d') /\
      outbound_flag (self ws') = outbound_flag (self ws) /\
      inbound_flag (self wr') = inbound_flag (self wr).
Proof.
  induction chunks as [|data rest IH]; intros ws wr c d Hc Hd HR.
  - exists [], ws, wr, c, d. simpl. auto 10.
  - destruct (proj2 codec_lossless (c_state c) (d_state d) data HR)
      as (out & c' & d' & Hadd & Hdec & HR').
    destruct (compressMessageData codec data ws) as [rs ws1] eqn:Hs.
    destruct (decompressMessageData codec out wr) as [rr wr1] eqn:Hr.
    pose proof (compressMessageData_keeps_flag data ws) as Hfs.
    pose proof (decompressMessageData_keeps_flag out wr) as Hfr.
    rewrite Hs in Hfs. rewrite Hr in Hfr. simpl in Hfs, Hfr.
    unfold compressMessageData in Hs. rewrite Hc, Hadd in Hs.
    unfold decompressMessageData in Hr. rewrite Hd, Hdec in Hr.
    injection Hs as <- Hws1. injection Hr as <- Hwr1.
    destruct (IH ws1 wr1
                {| c_id := c_id c; c_state := c' |}
                {| d_id := d_id d; d_state := d' |})
      as (outs & ws' & wr' & c'' & d'' & Hcs & Hds & Hc' & Hd' & HR'' & Hf1 & Hf2).
    + now rewrite <- Hws1.
    + now rewrite <- Hwr1.
    + exact HR'.
    + exists (out :: outs), ws', wr', c'', d''.
      simpl compress_chunks. simpl decompress_chunks.
      unfold compressMessageData, decompressMessageData.
      rewrite Hc, Hadd, Hd, Hdec, Hws1, Hwr1, Hcs, Hds. simpl.
      repeat split; try assumption.
      * now rewrite Hf1.
      * now rewrite Hf2.
Qed.

Lemma message_comes_through_aux (chunks : list string) (sender receiver : World) :
  in_sync R sender receiver ->
  exists outs sender' receiver',
    send_message chunks sender = (map (fun o => Ok (VStr o)) outs, sender') /\
    receive_message outs receiver = (map (fun x => Ok (VStr x)) chunks, receiver') /\
    in_sync R sender' receiver'.
Proof.
  intros [Hflags Hctx].
  unfold send_message, receive_message.
  rewrite startCompressMessage_by_flag, startDecompressMessage_by_flag.
  simpl snd.
  set (ws := if is_None (_compressor (self sender))
                || py_truth (outbound_flag (self sender))
             then set_new_compressor codec sender else sender).
  set (wr := if is_None (_decompressor (self receiver))
                || py_truth (inbound_flag (self receiver))
             then set_new_decompressor codec receiver else receiver).
  assert (Hstart : exists c d,
             _compressor (self ws) = Some c /\
             _decompressor (self wr) = Some d /\
             R (c_state c) (d_state d) /\
             outbound_flag (self ws) = outbound_flag (self sender) /\
             inbound_flag (self wr) = inbound_flag (self receiver)).
  { subst ws wr. rewrite <- Hflags.
    destruct (py_truth (outbound_flag (self sender))) eqn:Hflag.
    - rewrite !orb_true_r. do 2 eexists. repeat split.
      exact (proj1 codec_lossless).
    - rewrite !orb_false_r.
      destruct Hctx as [Hctx | Hctx]; [discriminate|].
      destruct (_compressor (self sender)) as [c|] eqn:Hc,
               (_decompressor (self receiver)) as [d|] eqn:Hd;
        try contradiction; simpl.
      + exists c, d. auto.
      + do 2 eexists. repeat split. exact (proj1 codec_lossless). }
  destruct Hstart as (c & d & Hc & Hd & HR & Hf1 & Hf2).
  destruct (chunks_come_through chunks ws wr c d Hc Hd HR)
    as (outs & ws' & wr' & c' & d' & Hcs & Hds & Hc' & Hd' & HR' & Hg1 & Hg2).
  exists outs, ws', wr'. rewrite Hcs, Hds. simpl.
  repeat split.
  - now rewrite Hg1, Hg2, Hf1, Hf2.
  - right. now rewrite Hc', Hd'.
Qed.

Lemma new_peers_in_sync (server client s2c c2s : PyVal) (n m : nat) :
  py_truth server = true -> py_truth client = false ->
  in_sync R {| self := init codec server s2c c2s; created := n |}
            {| self := init codec client s2c c2s; created := m |} /\
  in_sync R {| self := init codec client s2c c2s; created := m |}
            {| self := init codec server s2c c2s; created := n |}.
Proof.
  intros Hs Hc. unfold in_sync, outbound_flag, inbound_flag. simpl.
  rewrite Hs, Hc. auto.
Qed.

(** X19. A message sent is the message received.  With a codec that is
    lossless and a sending and a receiving session in step, a message
    given chunk by chunk to the sender between [startCompressMessage] and
    [endCompressMessage] makes every data call return a string, and these
    strings given to the receiver between [startDecompressMessage] and
    [endDecompressMessage] make its data calls return the chunks sent; no
    call raises and the two sessions are in step again, for the next
    message.  A new server and a new client with the same two flags are in
    step, in both directions. *)
Theorem message_comes_through :
  (forall (chunks : list string) (sender receiver : World),
      in_sync R sender receiver ->
      exists outs sender' receiver',
        send_message chunks sender = (map (fun o => Ok (VStr o)) outs, sender') /\
        receive_message outs receiver
        = (map (fun x => Ok (VStr x)) chunks, receiver') /\
        in_sync R sender' receiver') /\
  (forall (server client s2c c2s : PyVal) (n m : nat),
      py_truth server = true -> py_truth client = false ->
      in_sync R {| self := init codec server s2c c2s; created := n |}
                {| self := init codec client s2c c2s; created := m |} /\
      in_sync R {| self := init codec client s2c c2s; created := m |}
                {| self := init codec server s2c c2s; created := n |}).
Proof.
  split.
  - exact message_comes_through_aux.
  - exact new_peers_in_sync.
Qed.

End EndToEnd.

Lemma message_comes_through_witness :
  exists outs sender' receiver',
    send_message ["ab"; "c"] resetting_server
    = (map (fun o => Ok (VStr o)) outs, sender') /\
    receive_message outs resetting_client
    = (map (fun x => Ok (VStr x)) ["ab"; "c"], receiver') /\
    in_sync (fun _ _ => True) sender' receiver'.
Proof.
  refine (proj1 (message_comes_through copy_codec (fun _ _ => True) _)
                ["ab"; "c"] resetting_server resetting_client _).
  - split; [exact I|].
    intros c d data _. exists data, tt, tt.
    destruct c, d. repeat split.
  - split; [reflexivity|left; reflexivity].
Defined.
